(** * Leaderboard aggregation of the spacedash Lambda functions

    A shallow embedding of the leaderboard handler (top ten players by
    coins and by enemies defeated, fastest times per player and level)
    and of the stats-update handler that writes the records the
    leaderboard reads, together with the properties of the ranking, the
    time aggregation and the error mapping.

    Conventions of the embedding:
    - a JavaScript number is an exact rational extended with NaN and the
      two infinities; binary64 rounding, overflow, underflow and the sign
      of zero are not represented;
    - a JavaScript string is a sequence of one-byte characters; only the
      ASCII white space characters are trimmed by the numeric parsers;
    - a value read from or written to the table is a JSON-like tree; an
      object lists each own enumerable property once, in the order in
      which [for ... in] visits them; property names that shadow members
      of [Object.prototype] are outside the model;
    - an exception is a value of [result]; [try ... catch] is a match. *)

From Stdlib Require Import List String Ascii ZArith QArith Lqa Bool Lia.
From Stdlib Require Import Qround Permutation Sorted DecimalString DecimalNat.
Import ListNotations.

Set Warnings "-register-all".

Local Open Scope string_scope.
Local Open Scope list_scope.

(** ** The JavaScript runtime the handlers rely on *)

Module JS.

(** *** Numbers *)

Inductive number : Type :=
| NaN
| PosInf
| NegInf
| Fin (q : Q).

Definition zero : number := Fin 0.

Definition isNaN (x : number) : bool :=
  match x with NaN => true | _ => false end.

Definition neg (x : number) : number :=
  match x with
  | NaN => NaN
  | PosInf => NegInf
  | NegInf => PosInf
  | Fin q => Fin (Qred (- q))
  end.

(** [x - y] on numbers. *)
Definition sub (x y : number) : number :=
  match x, y with
  | NaN, _ | _, NaN => NaN
  | PosInf, PosInf | NegInf, NegInf => NaN
  | PosInf, _ | _, NegInf => PosInf
  | NegInf, _ | _, PosInf => NegInf
  | Fin a, Fin b => Fin (Qred (a - b))
  end.

(** [x > 0]; false on NaN, which is how [Array.prototype.sort] reads the
    result of a comparator (a NaN result counts as [+0]). *)
Definition is_positive (x : number) : bool :=
  match x with
  | PosInf => true
  | Fin q => negb (Qle_bool q 0)
  | NaN | NegInf => false
  end.

(** Numeric equality [x == y] of two numbers (false when either is NaN). *)
Definition num_eqb (x y : number) : bool :=
  match x, y with
  | PosInf, PosInf | NegInf, NegInf => true
  | Fin a, Fin b => Qeq_bool a b
  | _, _ => false
  end.

(** [x <= y] on numbers (false when either is NaN). *)
Definition num_leb (x y : number) : bool :=
  match x, y with
  | NaN, _ | _, NaN => false
  | NegInf, _ | _, PosInf => true
  | Fin a, Fin b => Qle_bool a b
  | _, _ => false
  end.

(** *** Strings and the numeric parsers *)

Definition dquote : string := String (ascii_of_nat 34) EmptyString.

Definition is_ws (c : ascii) : bool :=
  let n := nat_of_ascii c in
  ((9 <=? n) && (n <=? 13) || (n =? 32))%nat.

Fixpoint trim_left (s : string) : string :=
  match s with
  | String c r => if is_ws c then trim_left r else s
  | EmptyString => s
  end.

Fixpoint trim_right (s : string) : string :=
  match s with
  | String c r =>
      let r' := trim_right r in
      if is_ws c && (r' =? "") then "" else String c r'
  | EmptyString => ""
  end.

Fixpoint strip_prefix (p s : string) : option string :=
  match p, s with
  | EmptyString, _ => Some s
  | String a p', String b s' =>
      if Ascii.eqb a b then strip_prefix p' s' else None
  | String _ _, EmptyString => None
  end.

(** Value of a character as a digit in the given radix. *)
Definition digit_value (radix : nat) (c : ascii) : option Z :=
  let n := nat_of_ascii c in
  let d :=
    if ((48 <=? n) && (n <=? 57))%nat then Some (n - 48)%nat
    else if ((97 <=? n) && (n <=? 122))%nat then Some (n - 87)%nat
    else if ((65 <=? n) && (n <=? 90))%nat then Some (n - 55)%nat
    else None in
  match d with
  | Some k => if (k <? radix)%nat then Some (Z.of_nat k) else None
  | None => None
  end.

(** Reads the longest run of digits: the accumulated value, the number of
    digits read and the rest of the string. *)
Fixpoint take_digits (radix : nat) (s : string) (acc : Z) (cnt : nat)
  : Z * nat * string :=
  match s with
  | String c r =>
      match digit_value radix c with
      | Some d => take_digits radix r (acc * Z.of_nat radix + d)%Z (S cnt)
      | None => (acc, cnt, s)
      end
  | EmptyString => (acc, cnt, s)
  end.

Definition is_e (c : ascii) : bool :=
  (Ascii.eqb c "e" || Ascii.eqb c "E")%char.

(** ExponentPart, when one is there: the exponent and the rest. *)
Definition scan_exponent (s : string) : Z * string :=
  match s with
  | String c s1 =>
      if is_e c then
        let '(sgn, s2) :=
          match s1 with
          | String "+"%char r => (1%Z, r)
          | String "-"%char r => ((-1)%Z, r)
          | _ => (1%Z, s1)
          end in
        let '(v, n, s3) := take_digits 10 s2 0 0 in
        if (n =? 0)%nat then (0%Z, s) else ((sgn * v)%Z, s3)
      else (0%Z, s)
  | EmptyString => (0%Z, s)
  end.

(** The rational [m * 10 ^ e]. *)
Definition decimal (m e : Z) : number :=
  Fin (Qred (inject_Z m * Qpower (inject_Z 10) e)).

(** Longest prefix that is a StrUnsignedDecimalLiteral. *)
Definition scan_unsigned (s : string) : option (number * string) :=
  match strip_prefix "Infinity" s with
  | Some r => Some (PosInf, r)
  | None =>
      let '(i, ni, s1) := take_digits 10 s 0 0 in
      let '(m, nf, s2) :=
        match s1 with
        | String "."%char r =>
            let '(m, nf, r') := take_digits 10 r i 0 in
            if ((ni =? 0) && (nf =? 0))%nat then (i, 0%nat, s1)
            else (m, nf, r')
        | _ => (i, 0%nat, s1)
        end in
      if ((ni =? 0) && (nf =? 0))%nat then None
      else
        let '(e, s3) := scan_exponent s2 in
        Some (decimal m (e - Z.of_nat nf), s3)
  end.

(** Longest prefix that is a StrDecimalLiteral. *)
Definition scan_decimal (s : string) : option (number * string) :=
  match s with
  | String "+"%char r => scan_unsigned r
  | String "-"%char r =>
      match scan_unsigned r with
      | Some (v, r') => Some (neg v, r')
      | None => None
      end
  | _ => scan_unsigned s
  end.

(** [parseFloat(s)] on a string. *)
Definition parseFloat (s : string) : number :=
  match scan_decimal (trim_left s) with
  | Some (v, _) => v
  | None => NaN
  end.

(** A whole string of digits in the given radix (the literals [0x..],
    [0o..], [0b..] of StringToNumber). *)
Definition scan_radix (radix : nat) (s : string) : number :=
  let '(v, n, r) := take_digits radix s 0 0 in
  if (0 <? n)%nat && (r =? "") then Fin (inject_Z v) else NaN.

(** StringToNumber: [Number(s)], the conversion [ToNumber] applies to a
    string. *)
Definition StringToNumber (s : string) : number :=
  let t := trim_right (trim_left s) in
  match t with
  | EmptyString => zero
  | String "0"%char (String c r) =>
      if (Ascii.eqb c "x" || Ascii.eqb c "X")%char then scan_radix 16 r
      else if (Ascii.eqb c "o" || Ascii.eqb c "O")%char then scan_radix 8 r
      else if (Ascii.eqb c "b" || Ascii.eqb c "B")%char then scan_radix 2 r
      else match scan_decimal t with
           | Some (v, EmptyString) => v
           | _ => NaN
           end
  | _ =>
      match scan_decimal t with
      | Some (v, EmptyString) => v
      | _ => NaN
      end
  end.

(** [parseInt(s)] without a radix argument: the integer the digits
    denote. The language rounds it to a binary64 number, so the two
    agree for magnitudes up to [2^53]. *)
Definition parseInt (s : string) : number :=
  let t := trim_left s in
  let '(negative, t1) :=
    match t with
    | String "+"%char r => (false, r)
    | String "-"%char r => (true, r)
    | _ => (false, t)
    end in
  let '(radix, t2) :=
    match t1 with
    | String "0"%char (String c r) =>
        if (Ascii.eqb c "x" || Ascii.eqb c "X")%char then (16%nat, r)
        else (10%nat, t1)
    | _ => (10%nat, t1)
    end in
  let '(v, n, _) := take_digits radix t2 0 0 in
  if (n =? 0)%nat then NaN
  else Fin (inject_Z (if negative then - v else v)).

(** *** Values *)

Inductive value : Type :=
| VUndef
| VNull
| VBool (b : bool)
| VNum (x : number)
| VStr (s : string)
| VArr (elems : list value)
| VObj (props : list (string * value)).

(** An item of the table: the own properties of a plain object. *)
Definition object : Type := list (string * value).

Definition num (z : Z) : value := VNum (Fin (inject_Z z)).

(** ToBoolean: the truthiness that [!x], [x || y], [x && y] and [if (x)]
    test. *)
Definition ToBoolean (v : value) : bool :=
  match v with
  | VUndef | VNull => false
  | VBool b => b
  | VNum NaN => false
  | VNum (Fin q) => negb (Qeq_bool q 0)
  | VNum _ => true
  | VStr s => negb (s =? "")
  | VArr _ | VObj _ => true
  end.

(** [x || y] on values already evaluated ([y] has no effect here). *)
Definition or_else (x y : value) : value :=
  if ToBoolean x then x else y.

(** [typeof v === 'object'] *)
Definition typeof_object (v : value) : bool :=
  match v with
  | VNull | VArr _ | VObj _ => true
  | _ => false
  end.

(** ToNumber of the string an array or one of its elements joins to:
    [null] and [undefined] elements join to the empty string. *)
Fixpoint joined_number (v : value) : number :=
  match v with
  | VUndef | VNull => zero
  | VBool _ => NaN
  | VNum x => x
  | VStr s => StringToNumber s
  | VArr [] => zero
  | VArr [x] => joined_number x
  | VArr _ => NaN
  | VObj _ => NaN
  end.

(** ToNumber, the conversion the operator [-] applies to its operands. An
    array converts through [join(",")], a plain object through
    ["[object Object]"]. *)
Definition ToNumber (v : value) : number :=
  match v with
  | VUndef => NaN
  | VNull => zero
  | VBool b => if b then Fin 1 else zero
  | VNum x => x
  | VStr s => StringToNumber s
  | VArr _ => joined_number v
  | VObj _ => NaN
  end.

(** [parseFloat(v)]: [parseFloat] of [ToString v]. A number prints to a
    string that parses back to it; an array prints its elements separated
    by commas, so that only its first element can be read. *)
Fixpoint parseFloat_value (v : value) : number :=
  match v with
  | VUndef | VNull | VBool _ => NaN
  | VNum x => x
  | VStr s => parseFloat s
  | VArr [] => NaN
  | VArr (x :: _) => parseFloat_value x
  | VObj _ => NaN
  end.

(** *** Properties *)

Definition string_of_nat (n : nat) : string :=
  NilZero.string_of_uint (Nat.to_uint n).

Fixpoint assoc (k : string) (ps : object) : value :=
  match ps with
  | [] => VUndef
  | (k', v) :: r => if k =? k' then v else assoc k r
  end.

Fixpoint has_key (k : string) (ps : object) : bool :=
  match ps with
  | [] => false
  | (k', _) :: r => (k =? k') || has_key k r
  end.

(** [o[k] = v]: overwrites the property in place, or adds it last. *)
Fixpoint set_prop (k : string) (v : value) (ps : object) : object :=
  match ps with
  | [] => [(k, v)]
  | (k', v') :: r =>
      if k =? k' then (k, v) :: r else (k', v') :: set_prop k v r
  end.

Fixpoint chars (s : string) : list value :=
  match s with
  | EmptyString => []
  | String c r => VStr (String c "") :: chars r
  end.

Definition indexed (l : list value) : object :=
  combine (map string_of_nat (seq 0 (List.length l))) l.

(** The own enumerable properties of a value, in enumeration order: the
    fields of an object, the elements of an array and the characters of a
    string under their indices. *)
Definition own_props (v : value) : object :=
  match v with
  | VObj ps => ps
  | VArr l => indexed l
  | VStr s => indexed (chars s)
  | _ => []
  end.

(** [v[k]] for [v] neither [null] nor [undefined] and [k] an enumerable
    own property name or a name no prototype defines (the handlers read
    no other). *)
Definition get_prop (v : value) (k : string) : value :=
  assoc k (own_props v).

(** The names [for (const k in v)] visits. *)
Definition for_in_keys (v : value) : list string :=
  map fst (own_props v).

(** *** Exceptions *)

(** A thrown error object: its message and the enumerable own
    properties that [JSON.stringify] prints (a built-in error has none,
    an error of the store client may carry some). *)
Record error : Type := mkError {
  message : string;
  enumerable : object
}.

Definition Error (m : string) : error := mkError m [].
Definition TypeError (m : string) : error := mkError m [].

Inductive result (A : Type) : Type :=
| Ok (a : A)
| Throw (e : error).

Arguments Ok {A} a.
Arguments Throw {A} e.

Definition bind {A B} (r : result A) (k : A -> result B) : result B :=
  match r with
  | Ok a => k a
  | Throw e => Throw e
  end.

Notation "x <- r ;; k" := (bind r (fun x => k))
  (at level 61, r at next level, right associativity).

(** *** Arrays *)

(** [l.map(f)] for a callback that may throw: elements are visited from
    the left and the first exception ends the call. *)
Fixpoint Array_map {A B} (f : A -> result B) (l : list A)
  : result (list B) :=
  match l with
  | [] => Ok []
  | x :: r =>
      y <- f x ;;
      ys <- Array_map f r ;;
      Ok (y :: ys)
  end.

(** [l.slice(0, n)] *)
Definition slice0 {A} (n : nat) (l : list A) : list A := firstn n l.

Section Sort.
Context {A : Type}.
(** [after x y]: the comparator applied to [(x, y)] is positive, which
    asks for [x] to come after [y]. *)
Variable after : A -> A -> bool.

Fixpoint insert (x : A) (l : list A) : list A :=
  match l with
  | [] => [x]
  | y :: r => if after x y then y :: insert x r else x :: l
  end.

(** [l.sort(comparefn)]: the contents of the array after the call,
    which is also what the call returns (the array is sorted in place).
    The sort is stable; for a consistent comparator the language fixes
    the result, which is the one computed here by stable insertion. For
    a comparator that is not consistent (one that yields NaN for some
    pairs) the result is a permutation whose order is the engine's and
    need not be the one computed here: what is stated of the order
    below assumes metrics that convert to numbers. *)
Definition Array_sort (l : list A) : list A :=
  fold_right insert [] l.
End Sort.

(** The comparator [(a, b) => a - b]. *)
Definition ascending (a b : number) : bool := is_positive (sub a b).

End JS.

(** ** Requests and responses of the handlers *)

Record response : Type := mkResponse {
  statusCode : JS.value;
  body : string;
  headers : option (list (string * string))
}.

(** The class of a status code: its hundreds digit, when it is a number
    or a numeric string. *)
Definition status_class (r : response) : option Z :=
  match JS.ToNumber (statusCode r) with
  | JS.Fin q => Some (Qfloor q / 100)%Z
  | _ => None
  end.

Definition is_server_error (r : response) : bool :=
  match status_class r with Some 5%Z => true | _ => false end.

Definition is_client_error (r : response) : bool :=
  match status_class r with Some 4%Z => true | _ => false end.

(** ** The leaderboard handler *)

Module Leaderboard.
Import JS.

(** [player[field] || 0] *)
Definition metric (field : string) (player : object) : value :=
  or_else (assoc field player) (num 0).

(** The comparator [(a, b) => (b[field] || 0) - (a[field] || 0)], read
    as [Array.prototype.sort] reads it: [a] goes after [b] when the
    difference is positive. *)
Definition descending (field : string) (a b : object) : bool :=
  is_positive (sub (ToNumber (metric field b)) (ToNumber (metric field a))).

(** [{ username: player.username, <label>: player[field] || 0 }] *)
Definition ranked (field label : string) (player : object) : value :=
  VObj [("username", assoc "username" player); (label, metric field player)].

(** [players.sort(...).slice(0, n).map(...)]. The call to [sort] reorders
    the array [players] itself, so the array after the call is returned
    next to the ranking. The handler takes [n = 10]. *)
Definition topN (field label : string) (n : nat) (players : list object)
  : list object * list value :=
  let players' := Array_sort (descending field) players in
  (players', map (ranked field label) (slice0 n players')).

Definition topCoins := topN "coins-collected" "coins".
Definition topEnemies := topN "enemies-defeated" "enemies".

(** [parseFloat(timeObj.N)] *)
Definition time_of (timeObj : value) : result number :=
  match timeObj with
  | VUndef =>
      Throw (TypeError "Cannot read properties of undefined (reading 'N')")
  | VNull =>
      Throw (TypeError "Cannot read properties of null (reading 'N')")
  | _ => Ok (parseFloat_value (get_prop timeObj "N"))
  end.

(** [times[level]?.L] *)
Definition tagged_list (times : value) (level : string) : value :=
  match get_prop times level with
  | VUndef | VNull => VUndef
  | entry => get_prop entry "L"
  end.

(** One turn of the loop [for (const level in times)]: the object
    [fastestTimes] after the turn. *)
Definition level_turn (times : value) (level : string)
    (fastestTimes : object) : result object :=
  let L := tagged_list times level in
  if ToBoolean L then
    match L with
    | VArr elems =>
        parsed <- Array_map time_of elems ;;
        let levelTimes := filter (fun time => negb (isNaN time)) parsed in
        Ok (set_prop level (VArr (map VNum (Array_sort ascending levelTimes)))
              fastestTimes)
    | _ => Throw (TypeError "times[level].L.map is not a function")
    end
  else Ok fastestTimes.

Fixpoint for_levels (times : value) (levels : list string)
    (fastestTimes : object) : result object :=
  match levels with
  | [] => Ok fastestTimes
  | level :: rest =>
      fastestTimes' <- level_turn times level fastestTimes ;;
      for_levels times rest fastestTimes'
  end.

(** The object [fastestTimes] built for one player. *)
Definition fastestTimes_of (player : object) : result object :=
  let times := assoc "fastest-times" player in
  if ToBoolean times && typeof_object times
  then for_levels times (for_in_keys times) []
  else Ok [].

(** The callback of [players.map] that builds [allFastestTimes]. *)
Definition fastest_entry (player : object) : result value :=
  fastestTimes <- fastestTimes_of player ;;
  Ok (VObj [("username", assoc "username" player);
            ("fastestTimes", VObj fastestTimes)]).

Definition allFastestTimes (players : list object) : result (list value) :=
  Array_map fastest_entry players.

(** The GET branch after the scan, with the bound of both rankings as a
    parameter: the array [players] as the three statements leave it, and
    the response body or the exception thrown. *)
Definition compose_top (n : nat) (players : list object)
  : list object * result value :=
  let '(players1, coins) := topCoins n players in
  let '(players2, enemies) := topEnemies n players1 in
  (players2,
   times <- allFastestTimes players2 ;;
   Ok (VObj [("topCoins", VArr coins);
             ("topEnemies", VArr enemies);
             ("allFastestTimes", VArr times)])).

Definition compose : list object -> list object * result value :=
  compose_top 10.

Record event : Type := mkEvent {
  httpMethod : option string
}.

(** What [await dynamo.scan(params)] resolves to: [data.Items], absent
    or an array of items. *)
Record scan_output : Type := mkScan {
  Items : option (list object)
}.

Definition cors : list (string * string) :=
  [("Content-Type", "application/json");
   ("Access-Control-Allow-Origin", "*");
   ("Access-Control-Allow-Methods", "GET,OPTIONS");
   ("Access-Control-Allow-Headers", "Content-Type")].

Section Handler.
(** [JSON.stringify] *)
Variable JSON_stringify : value -> string.
(** The outcome of the scan of the table ["player-stats"]: the data it
    resolves to, or the error it rejects with. *)
Variable scan : result scan_output.

(** The body of the [try] block. *)
Definition try_block (ev : event) : result value :=
  match httpMethod ev with
  | Some "GET" =>
      data <- scan ;;
      match Items data with
      | None => Throw (Error "No data found in DynamoDB")
      | Some players => snd (compose players)
      end
  | m =>
      Throw (Error ("Unsupported method " ++ dquote ++
                    match m with Some s => s | None => "undefined" end ++
                    dquote))
  end.

Definition handler (ev : event) : response :=
  match try_block ev with
  | Ok b => mkResponse (VStr "200") (JSON_stringify b) (Some cors)
  | Throw err =>
      mkResponse (VStr "400")
        (JSON_stringify (VObj [("error", VStr (message err))]))
        (Some cors)
  end.
End Handler.

End Leaderboard.

(** ** The stats-update handler *)

Module UpdatePlayerStats.
Import JS.

Record event : Type := mkEvent {
  queryStringParameters : option (list (string * string))
}.

(** A name destructured from [event.queryStringParameters || {}]. *)
Definition param (ev : event) (k : string) : option string :=
  match queryStringParameters ev with
  | Some q =>
      match find (fun p => k =? fst p) q with
      | Some p => Some (snd p)
      | None => None
      end
  | None => None
  end.

(** [s || d] for a parameter that is a string or undefined. *)
Definition or_default (s : option string) (d : string) : string :=
  match s with
  | Some (String c r) => String c r
  | _ => d
  end.

(** [parseInt(s) || 0] *)
Definition parsed_count (s : option string) : value :=
  or_else (VNum (match s with Some t => parseInt t | None => NaN end))
          (num 0).

Definition ok_headers : list (string * string) :=
  [("Content-Type", "application/json");
   ("Access-Control-Allow-Origin", "*");
   ("Access-Control-Allow-Headers", "Content-Type");
   ("Access-Control-Allow-Methods", "GET, POST, OPTIONS")].

Section Handler.
(** [JSON.parse], which throws on a text that is not JSON. *)
Variable JSON_parse : string -> result value.
Variable JSON_stringify : value -> string.
(** The outcome of [await dynamo.put({TableName, Item})] for an item.
    The document client stores the JSON tree of the item as it is and
    a later read returns the same tree. *)
Variable put : object -> result unit.

(** The item written for a request with a user name. *)
Definition item (username : string) (ev : event) : result object :=
  parsedLevels <- JSON_parse (or_default (param ev "levelsCompleted") "[]") ;;
  parsedFastestTimes <-
    JSON_parse (or_default (param ev "fastestTimes") "{}") ;;
  Ok [("username", VStr username);
      ("coins-collected", parsed_count (param ev "coinsCollected"));
      ("enemies-defeated", parsed_count (param ev "enemiesDefeated"));
      ("levels-completed", parsedLevels);
      ("fastest-times", parsedFastestTimes)].

Definition handler (ev : event) : response :=
  match param ev "username" with
  | Some (String c r) =>
      match (it <- item (String c r) ev ;; _ <- put it ;; Ok it) with
      | Ok it =>
          mkResponse (num 200)
            (JSON_stringify
               (VObj [("message",
                       VStr "Player stats overwritten successfully.");
                      ("data", VObj it)]))
            (Some ok_headers)
      | Throw err =>
          mkResponse (num 500)
            (JSON_stringify
               (VObj [("message", VStr "Failed to update player stats.");
                      ("error", VObj (enumerable err))]))
            None
      end
  | _ =>
      mkResponse (num 400)
        (JSON_stringify (VObj [("message", VStr "Username is required.")]))
        None
  end.
End Handler.

End UpdatePlayerStats.

(** ** What a leaderboard request observes

    The names the properties below are stated with. *)

Module Observed.
Import JS Leaderboard.

(** The array [players] after the first and after the second call to
    [sort] of the handler. *)
Definition by_coins (players : list object) : list object :=
  Array_sort (descending "coins-collected") players.

Definition by_enemies (players : list object) : list object :=
  Array_sort (descending "enemies-defeated") players.

(** The two rankings and the time aggregation of a request whose scan
    returned [players], for rankings of at most [n] entries. *)
Definition coins_ranking (n : nat) (players : list object) : list value :=
  snd (topCoins n players).

Definition enemies_ranking (n : nat) (players : list object) : list value :=
  snd (topEnemies n (fst (topCoins n players))).

Definition aggregate (players : list object) : result (list value) :=
  allFastestTimes (fst (compose players)).

(** The two metrics of the leaderboard: the field of an item and the
    name it is shown under. *)
Definition metrics : list (string * string) :=
  [("coins-collected", "coins"); ("enemies-defeated", "enemies")].

(** The number an entry of a ranking shows under [label]. *)
Definition shown (label : string) (entry : value) : number :=
  ToNumber (get_prop entry label).

(** The number a player is ranked by. *)
Definition rank_key (field : string) (player : object) : number :=
  ToNumber (metric field player).

(** The metric of the player converts to a number. *)
Definition ranks_as_number (field : string) (player : object) : Prop :=
  isNaN (rank_key field player) = false.

Definition descending_by (label : string) (entries : list value) : Prop :=
  StronglySorted
    (fun e1 e2 => num_leb (shown label e2) (shown label e1) = true) entries.

(** Stability of a ranking with respect to a sequence of players: for
    every value of the metric, the entries showing that value are, in
    this order, the first of the players having it. *)
Definition stable_wrt (field label : string) (players : list object)
    (entries : list value) : Prop :=
  forall v : number,
  exists rest : list value,
    map (ranked field label)
        (filter (fun p => num_eqb (rank_key field p) v) players)
    = filter (fun e => num_eqb (shown label e) v) entries ++ rest.

(** The times a tagged list holds: each element's [N] read by
    [parseFloat], the failures dropped, the rest in ascending order. *)
Definition parsed_times (elems : list value) : list number :=
  filter (fun time => negb (isNaN time))
         (map (fun e => parseFloat_value (get_prop e "N")) elems).

Definition sorted_times (elems : list value) : list number :=
  Array_sort ascending (parsed_times elems).

Definition not_nullish (v : value) : bool :=
  match v with VUndef | VNull => false | _ => true end.

(** The value under [L] of a level is absent (or falsy), or it is a list
    of elements none of which is [null] or [undefined]. *)
Definition well_shaped (L : value) : bool :=
  match L with
  | VArr elems => forallb not_nullish elems
  | _ => negb (ToBoolean L)
  end.

(** Every level of the player's fastest times is well shaped. *)
Definition times_well_shaped (player : object) : bool :=
  let times := assoc "fastest-times" player in
  if ToBoolean times && typeof_object times
  then forallb (fun level => well_shaped (tagged_list times level))
               (for_in_keys times)
  else true.

Definition is_array (v : value) : bool :=
  match v with VArr _ => true | _ => false end.


End Observed.


(** ** Strings of object keys *)

Module Text.
Import JS.

(** [s.split(sep)] for a separator of one character. *)
Fixpoint split (sep : ascii) (s : string) : list string :=
  match s with
  | EmptyString => [EmptyString]
  | String c r =>
      if Ascii.eqb c sep then EmptyString :: split sep r
      else match split sep r with
           | seg :: segs => String c seg :: segs
           | [] => [String c EmptyString]
           end
  end.

(** [s.endsWith(c)] for a text [c] of one character. *)
Fixpoint endsWith (c : ascii) (s : string) : bool :=
  match s with
  | EmptyString => false
  | String a r =>
      match r with
      | EmptyString => Ascii.eqb a c
      | String _ _ => endsWith c r
      end
  end.

(** The character does not occur in the text. *)
Fixpoint free_of (c : ascii) (s : string) : bool :=
  match s with
  | EmptyString => true
  | String a r => negb (Ascii.eqb a c) && free_of c r
  end.

(** The number a property name stands for when it is an array index: the
    canonical decimal text of an integer below [2^32 - 1]. *)
Definition array_index (k : string) : option N :=
  match NilZero.uint_of_string k with
  | Some u =>
      let n := N.of_uint u in
      if (NilZero.string_of_uint (N.to_uint n) =? k)
         && (n <? 4294967295)%N
      then Some n else None
  | None => None
  end.

Definition is_index (p : string * value) : bool :=
  match array_index (fst p) with Some _ => true | None => false end.

Definition index_after (p q : string * value) : bool :=
  match array_index (fst p), array_index (fst q) with
  | Some m, Some n => (n <? m)%N
  | _, _ => false
  end.

(** The properties of an object built by the assignments listed in
    [ps], in the order in which the object enumerates them: the array
    indices in ascending order, then the other names in the order of
    their first assignment. *)
Definition enumerated (ps : object) : object :=
  Array_sort index_after (filter is_index ps)
  ++ filter (fun p => negb (is_index p)) ps.

End Text.

(** ** The two handlers that list a folder of the bucket *)

Module S3.
Import JS Text.

(** An entry of [Contents] in the answer of [ListObjectsV2]; only its
    [Key] is read. *)
Record s3_object : Type := mkObject {
  Key : option string
}.

Record listing : Type := mkListing {
  Contents : option (list s3_object)
}.

Definition cloudfrontDomain : string :=
  "https://d3vva0g6vi1eo1.cloudfront.net".

(** [Key && !Key.endsWith('/')] *)
Definition is_file (o : s3_object) : bool :=
  match Key o with
  | Some (String c r) => negb (endsWith "/" (String c r))
  | _ => false
  end.

(** The keys of [Contents.filter(({ Key }) => Key && !Key.endsWith('/'))]. *)
Definition validFiles (contents : list s3_object) : list string :=
  flat_map (fun o => match Key o with
                     | Some k => if is_file o then [k] else []
                     | None => []
                     end) contents.

(** [Key.split('/').pop().split('.').shift()]: [split] never returns an
    empty array, so that [pop] and [shift] return texts. *)
Definition colour_of (key : string) : string :=
  hd "" (split "." (last (split "/" key) "")).

(** The template [`${cloudfrontDomain}/${Key}`]. *)
Definition url_of (key : string) : string :=
  cloudfrontDomain ++ "/" ++ key.

Definition get_headers : list (string * string) :=
  [("Access-Control-Allow-Origin", "*");
   ("Access-Control-Allow-Methods", "GET");
   ("Access-Control-Allow-Headers", "Content-Type")].

End S3.

(** *** The URL of the spritesheet of a colour *)

Module SpritesheetURL.
Import JS Text S3.

Section Handler.
Variable JSON_stringify : value -> string.
(** The outcome of [await s3Client.send(command)] for the folder
    ['spritesheets/']. *)
Variable send : result listing.

Definition found (colour key : string) : response :=
  mkResponse (num 200)
    (JSON_stringify (VObj [("characterColour", VStr colour);
                           ("url", VStr (url_of key))]))
    (Some get_headers).

Definition not_found (colour : string) : response :=
  mkResponse (num 404)
    (JSON_stringify
       (VObj [("message",
               VStr ("Spritesheet for characterColour " ++ dquote ++ colour
                     ++ dquote ++ " not found."))]))
    None.

Definition handler (ev : UpdatePlayerStats.event) : response :=
  match UpdatePlayerStats.param ev "characterColour" with
  | Some (String c r) =>
      let searchCharacterColour := String c r in
      match send with
      | Ok answer =>
          match Contents answer with
          | Some (o :: os) =>
              match find (fun key => colour_of key =? searchCharacterColour)
                         (validFiles (o :: os)) with
              | Some key => found searchCharacterColour key
              | None => not_found searchCharacterColour
              end
          | _ =>
              mkResponse (num 404)
                (JSON_stringify
                   (VObj [("message",
                           VStr "No files found in the spritesheets folder.")]))
                None
          end
      | Throw _ =>
          mkResponse (num 500)
            (JSON_stringify
               (VObj [("message", VStr "Error retrieving spritesheet URLs")]))
            None
      end
  | _ =>
      mkResponse (num 400)
        (JSON_stringify
           (VObj [("message",
                   VStr "Missing required query parameter: characterColour")]))
        None
  end.
End Handler.

End SpritesheetURL.

(** *** The URLs of all character images *)

Module CharacterURLs.
Import JS Text S3.

(** The object [characterURLs] after the loop over the valid files: each
    file assigns its URL under its colour. *)
Definition characterURLs (keys : list string) : object :=
  fold_left (fun urls key => set_prop (colour_of key) (VStr (url_of key)) urls)
            keys [].

Section Handler.
Variable JSON_stringify : value -> string.
(** The outcome of [await s3Client.send(command)] for the folder
    ['characters/']. *)
Variable send : result listing.

Definition handler : response :=
  match send with
  | Ok answer =>
      let urls :=
        match Contents answer with
        | Some (o :: os) => characterURLs (validFiles (o :: os))
        | _ => []
        end in
      mkResponse (num 200) (JSON_stringify (VObj (enumerated urls)))
        (Some get_headers)
  | Throw _ =>
      mkResponse (num 500)
        (JSON_stringify
           (VObj [("message", VStr "Error retrieving character URLs")]))
        None
  end.
End Handler.

End CharacterURLs.

(** ** The handlers that read or update one record *)

Module Gateway.

(** The event of a request that carries a method and query parameters:
    [httpMethod] is [None] when the event has none ([undefined]);
    [queryStringParameters] is [None] when the request has no query
    string, which the gateway passes as [null]. *)
Record event : Type := mkEvent {
  httpMethod : option string;
  queryStringParameters : option (list (string * string))
}.

Definition lookup (q : list (string * string)) (k : string) : option string :=
  match find (fun p => k =? fst p) q with
  | Some p => Some (snd p)
  | None => None
  end.

(** A parameter as a value: a text, or [undefined]. *)
Definition as_value (s : option string) : JS.value :=
  match s with Some t => JS.VStr t | None => JS.VUndef end.

Definition unsupported (m : option string) : JS.error :=
  JS.Error ("Unsupported method " ++ JS.dquote ++
            match m with Some s => s | None => "undefined" end ++
            JS.dquote).

End Gateway.

(** *** Reading the statistics of a player *)

Module GetPlayerStats.
Import JS.

Section Handler.
Variable JSON_stringify : value -> string.
(** The outcome of [await dynamo.get({TableName, Key: { username }})]:
    [result.Item], absent when the table has no item under the key. *)
Variable get : string -> result (option object).

Definition handler (ev : UpdatePlayerStats.event) : response :=
  match UpdatePlayerStats.param ev "username" with
  | Some (String c r) =>
      match get (String c r) with
      | Ok (Some Item) =>
          mkResponse (num 200)
            (JSON_stringify
               (VObj [("message",
                       VStr "Player stats retrieved successfully.");
                      ("data", VObj Item)]))
            (Some UpdatePlayerStats.ok_headers)
      | Ok None =>
          mkResponse (num 404)
            (JSON_stringify (VObj [("message", VStr "Player not found.")]))
            None
      | Throw err =>
          mkResponse (num 500)
            (JSON_stringify
               (VObj [("message", VStr "Failed to retrieve player stats.");
                      ("error", VObj (enumerable err))]))
            None
      end
  | _ =>
      mkResponse (num 400)
        (JSON_stringify (VObj [("message", VStr "Username is required.")]))
        None
  end.
End Handler.

End GetPlayerStats.

(** *** Reading a user *)

Module GetUser.
Import JS Gateway.

Definition cors : list (string * string) :=
  [("Content-Type", "application/json");
   ("Access-Control-Allow-Origin", "*");
   ("Access-Control-Allow-Methods", "GET, OPTIONS");
   ("Access-Control-Allow-Headers", "Content-Type")].

Section Handler.
Variable JSON_stringify : value -> string.
(** The outcome of [await dynamo.get] on the table ['spacedash-user']. *)
Variable get : string -> result (option object).

Definition try_block (ev : event) : result value :=
  match httpMethod ev with
  | Some "GET" =>
      match
        match queryStringParameters ev with
        | Some q => lookup q "username"
        | None => None
        end
      with
      | Some (String c r) =>
          result <- get (String c r) ;;
          Ok (match result with
              | Some Item => VObj Item
              | None => VObj [("message", VStr "User not found")]
              end)
      | _ => Throw (Error "Username query parameter is required")
      end
  | m => Throw (unsupported m)
  end.

Definition handler (ev : event) : response :=
  match try_block ev with
  | Ok b => mkResponse (VStr "200") (JSON_stringify b) (Some cors)
  | Throw err =>
      mkResponse (VStr "400") (JSON_stringify (VStr (message err)))
        (Some cors)
  end.
End Handler.

End GetUser.

(** *** Choosing the character of a user *)

Module UpdateCharacter.
Import JS Gateway.

Definition cors : list (string * string) :=
  [("Content-Type", "application/json");
   ("Access-Control-Allow-Origin", "*");
   ("Access-Control-Allow-Methods", "GET,OPTIONS");
   ("Access-Control-Allow-Headers", "Content-Type")].

Section Handler.
Variable JSON_stringify : value -> string.
(** The outcome of [await dynamo.update] on the table ['spacedash-user']
    for the key [{ username }] and the value [colour] of the attribute
    [character]. *)
Variable update : value -> value -> result value.

(** The status and the body at the end of the [try] block. *)
Definition try_block (ev : event) : result (string * value) :=
  match httpMethod ev with
  | Some "GET" =>
      match queryStringParameters ev with
      | Some q =>
          b <- update (as_value (lookup q "username"))
                      (as_value (lookup q "colour")) ;;
          Ok ("200", b)
      | None =>
          Throw (TypeError
                   ("Cannot destructure property 'username' of "
                    ++ "'event.queryStringParameters' as it is null."))
      end
  | Some "OPTIONS" => Ok ("204", VStr "")
  | m => Throw (unsupported m)
  end.

Definition handler (ev : event) : response :=
  match try_block ev with
  | Ok (status, b) => mkResponse (VStr status) (JSON_stringify b) (Some cors)
  | Throw err =>
      mkResponse (VStr "400") (JSON_stringify (VStr (message err)))
        (Some cors)
  end.
End Handler.

End UpdateCharacter.

(** ** The table of player statistics between the handlers *)

Module Stored.
Import JS.

(** The item the update handler hands to the store for a request, when
    the request gets that far. *)
Definition written (JSON_parse : string -> result value)
    (ev : UpdatePlayerStats.event) : option object :=
  match UpdatePlayerStats.param ev "username" with
  | Some (String c r) =>
      match UpdatePlayerStats.item JSON_parse (String c r) ev with
      | Ok it => Some it
      | Throw _ => None
      end
  | _ => None
  end.

(** The item is stored under the user name [u]. *)
Definition named (u : string) (it : object) : bool :=
  match assoc "username" it with
  | VStr u' => u' =? u
  | _ => false
  end.

(** The table ["player-stats"] as the handlers use it: [username] is the
    partition key, a put overwrites the item under the same key, a get
    returns the item under a key and a scan returns every item. Reads
    are taken to see the last write. *)
Definition put (u : string) (it : object) (table : list object)
  : list object :=
  it :: filter (fun i => negb (named u i)) table.

Definition get (u : string) (table : list object) : option object :=
  find (named u) table.

(** The table after an update request that the store accepts. *)
Definition table_after (JSON_parse : string -> result value)
    (table : list object) (ev : UpdatePlayerStats.event) : list object :=
  match UpdatePlayerStats.param ev "username", written JSON_parse ev with
  | Some u, Some it => put u it table
  | _, _ => table
  end.

End Stored.

(** ** Sample scans *)

Module Sample.
Import JS.

Definition player (u : string) (coins enemies : Z) : object :=
  [("username", VStr u);
   ("coins-collected", num coins);
   ("enemies-defeated", num enemies)].

(** Three players, two of them tied on coins. *)
Definition tied_coins : list object :=
  [[("username", VStr "a"); ("coins-collected", num 5)];
   [("username", VStr "b"); ("coins-collected", num 5)];
   [("username", VStr "c"); ("coins-collected", num 9)]].

(** Two players tied on enemies, the second ahead on coins. *)
Definition tied_enemies : list object :=
  [player "a" 1 5; player "b" 2 5].

(** Two players, the second ahead on enemies. *)
Definition two_players : list object :=
  [player "a" 0 1; player "b" 0 2].

(** A player whose coins are a text that is not a number, before a
    player with nine coins. *)
Definition text_coins : list object :=
  [[("username", VStr "x"); ("coins-collected", VStr "abc")];
   [("username", VStr "y"); ("coins-collected", num 9)]].

(** A player without a coins field, before a player with nine coins. *)
Definition no_coins : list object :=
  [[("username", VStr "x")];
   [("username", VStr "y"); ("coins-collected", num 9)]].

(** A level in the tagged-list encoding with one element that does not
    parse. *)
Definition tagged_level1 : object :=
  [("username", VStr "u");
   ("fastest-times",
    VObj [("level1",
           VObj [("L", VArr [VObj [("N", VStr "12.5")];
                             VObj [("N", VStr "bad")];
                             VObj [("N", VStr "3.2")]])])])].

(** A level whose [L] is a number instead of a list. *)
Definition corrupt_level : object :=
  [("username", VStr "u");
   ("fastest-times", VObj [("level1", VObj [("L", num 5)])])].

(** A level whose list holds a [null]. *)
Definition null_time : object :=
  [("username", VStr "v");
   ("fastest-times", VObj [("level1", VObj [("L", VArr [VNull])])])].

Definition GET : Leaderboard.event := Leaderboard.mkEvent (Some "GET").

(** The text [{"level1":[3.2]}]. *)
Definition times_text : string :=
  "{" ++ dquote ++ "level1" ++ dquote ++ ":[3.2]}".

(** An update request that submits one time for one level. *)
Definition update_event : UpdatePlayerStats.event :=
  UpdatePlayerStats.mkEvent
    (Some [("username", "u"); ("coinsCollected", "7");
           ("fastestTimes", times_text)]).

(** The text [{"level1":{"L":5}}]. *)
Definition corrupt_text : string :=
  "{" ++ dquote ++ "level1" ++ dquote ++ ":{" ++ dquote ++ "L" ++ dquote
  ++ ":5}}".

(** An update request that submits a level whose [L] is a number. *)
Definition corrupt_event : UpdatePlayerStats.event :=
  UpdatePlayerStats.mkEvent
    (Some [("username", "u"); ("fastestTimes", corrupt_text)]).

(** [JSON.parse] on the texts the requests above have parsed. *)
Definition sample_parse (s : string) : result value :=
  if s =? "[]" then Ok (VArr [])
  else if s =? times_text
       then Ok (VObj [("level1", VArr [VNum (Fin (16 # 5))])])
  else if s =? corrupt_text
       then Ok (VObj [("level1", VObj [("L", num 5)])])
       else Throw (Error "Unexpected token").

End Sample.

(** ** The order the two sorts leave *)

Module Ordering.
Import JS Leaderboard Observed.

(** [a] may stand before [b] in a ranking by [field]. *)
Definition by_desc (field : string) (a b : object) : Prop :=
  num_leb (rank_key field b) (rank_key field a) = true.

(** The player is ranked by the number [v] for [field]. *)
Definition having (field : string) (v : number) (p : object) : bool :=
  num_eqb (rank_key field p) v.



End Ordering.

(** ** Sample records with levels that are not lists *)

Module SampleLevels.
Import JS.

(** A level in the tagged-list encoding next to a level whose [L] is a
    text. *)
Definition mixed_levels : object :=
  [("username", VStr "m");
   ("fastest-times",
    VObj [("level1", VObj [("L", VArr [VObj [("N", VStr "12.5")];
                                       VObj [("N", VStr "3.2")]])]);
          ("level2", VObj [("L", VStr "n/a")])])].

(** A level whose list holds a time and a [null]. *)
Definition null_among_times : object :=
  [("username", VStr "n");
   ("fastest-times",
    VObj [("level1", VObj [("L", VArr [VObj [("N", VStr "3.2")]; VNull])])])].

(** A level whose times carry an exponent, a sign, leading white space
    and trailing text. *)
Definition signed_times : object :=
  [("username", VStr "s");
   ("fastest-times",
    VObj [("level1",
           VObj [("L", VArr [VObj [("N", VStr "2e1")];
                             VObj [("N", VStr "-1.5e2")];
                             VObj [("N", VStr " 7.25abc")];
                             VObj [("N", VStr "e5")]])])])].


End SampleLevels.

(** ** Sample listings *)

Module SampleListing.
Import S3.

(** A folder with its own entry, two colours and a second file of the
    first colour. *)
Definition sprites : list s3_object :=
  [mkObject (Some "spritesheets/");
   mkObject (Some "spritesheets/blue.png");
   mkObject (Some "spritesheets/red.png");
   mkObject (Some "spritesheets/blue.json")].

Definition blue_request : UpdatePlayerStats.event :=
  UpdatePlayerStats.mkEvent (Some [("characterColour", "blue")]).

Definition no_colour_request : UpdatePlayerStats.event :=
  UpdatePlayerStats.mkEvent (Some [("colour", "blue")]).

End SampleListing.

(** ** The numeric parsers on sample texts *)

Example parseFloat_12_5 : JS.parseFloat "12.5" = JS.Fin (25 # 2).
Proof. vm_compute. reflexivity. Qed.
Example parseFloat_bad : JS.parseFloat "bad" = JS.NaN.
Proof. vm_compute. reflexivity. Qed.
Example parseFloat_e : JS.parseFloat " -1.5e2xyz" = JS.Fin (-150 # 1).
Proof. vm_compute. reflexivity. Qed.
Example parseFloat_dot : JS.parseFloat "." = JS.NaN.
Proof. vm_compute. reflexivity. Qed.
Example parseFloat_5dot : JS.parseFloat "5." = JS.Fin (5 # 1).
Proof. vm_compute. reflexivity. Qed.
Example parseFloat_dot5 : JS.parseFloat ".5e" = JS.Fin (1 # 2).
Proof. vm_compute. reflexivity. Qed.
Example s2n_hex : JS.StringToNumber " 0x1F " = JS.Fin (31 # 1).
Proof. vm_compute. reflexivity. Qed.
Example s2n_bad : JS.StringToNumber "12px" = JS.NaN.
Proof. vm_compute. reflexivity. Qed.
Example s2n_empty : JS.StringToNumber "  " = JS.Fin 0.
Proof. vm_compute. reflexivity. Qed.
Example parseInt_12px : JS.parseInt "12px" = JS.Fin (12 # 1).
Proof. vm_compute. reflexivity. Qed.

(** ** Order on numbers *)

Import JS.

Lemma is_positive_sub_false (x y : number) :
  isNaN x = false -> isNaN y = false ->
  is_positive (sub x y) = false -> num_leb x y = true.
Proof.
  destruct x as [| | |a], y as [| | |b]; cbn [sub is_positive num_leb num_eqb isNaN]; try congruence.
  intros _ _ H. apply negb_false_iff in H.
  apply Qle_bool_iff in H. pose proof (Qred_correct (a - b)) as E.
  apply Qle_bool_iff. lra.
Qed.

Lemma is_positive_sub_true (x y : number) :
  is_positive (sub x y) = true ->
  num_leb y x = true /\ num_leb x y = false.
Proof.
  destruct x as [| | |a], y as [| | |b]; cbn [sub is_positive num_leb num_eqb isNaN]; try congruence; auto.
  intros H. apply negb_true_iff in H.
  pose proof (Qred_correct (a - b)) as E.
  assert (Hlt : ~ a - b <= 0).
  { intros Hle. assert (Hr : Qred (a - b) <= 0) by lra.
    apply Qle_bool_iff in Hr. congruence. }
  split.
  - apply Qle_bool_iff. lra.
  - destruct (Qle_bool a b) eqn:F; [|reflexivity].
    apply Qle_bool_iff in F. exfalso. apply Hlt. lra.
Qed.

Lemma num_leb_trans (x y z : number) :
  num_leb x y = true -> num_leb y z = true -> num_leb x z = true.
Proof.
  destruct x as [| | |a], y as [| | |b], z as [| | |c];
    cbn [sub is_positive num_leb num_eqb isNaN]; try congruence.
  rewrite !Qle_bool_iff. lra.
Qed.

Lemma num_leb_not_NaN (x y : number) :
  num_leb x y = true -> isNaN x = false /\ isNaN y = false.
Proof. destruct x, y; cbn [sub is_positive num_leb num_eqb isNaN]; try congruence; auto. Qed.

Lemma num_eqb_sub (x y v : number) :
  num_eqb x v = true -> num_eqb y v = true -> is_positive (sub x y) = false.
Proof.
  destruct x as [| | |a], y as [| | |b], v as [| | |c];
    cbn [sub is_positive num_leb num_eqb isNaN]; try congruence.
  rewrite !Qeq_bool_iff. intros Ha Hb.
  pose proof (Qred_correct (a - b)) as E.
  apply negb_false_iff, Qle_bool_iff. lra.
Qed.

(** ** The sort: permutation, stability, order *)

Section SortFacts.
Context {A : Type} (after : A -> A -> bool).

Lemma insert_perm (x : A) (l : list A) :
  Permutation (insert after x l) (x :: l).
Proof.
  induction l as [|y r IH]; simpl; [reflexivity|].
  destruct (after x y); [|reflexivity].
  rewrite IH. apply perm_swap.
Qed.

Lemma Array_sort_perm (l : list A) : Permutation (Array_sort after l) l.
Proof.
  induction l as [|x r IH]; simpl; [constructor|].
  rewrite insert_perm. now constructor.
Qed.

Lemma Array_sort_length (l : list A) :
  List.length (Array_sort after l) = List.length l.
Proof. apply Permutation_length, Array_sort_perm. Qed.

Lemma Array_sort_In (x : A) (l : list A) :
  In x (Array_sort after l) <-> In x l.
Proof.
  split; apply Permutation_in;
    [apply Array_sort_perm | symmetry; apply Array_sort_perm].
Qed.

Section Stable.
Variable p : A -> bool.
Hypothesis ties : forall x y, p x = true -> p y = true -> after x y = false.

Lemma insert_filter (x : A) (l : list A) :
  filter p (insert after x l) = filter p (x :: l).
Proof.
  induction l as [|y r IH]; [reflexivity|].
  cbn [insert]. destruct (after x y) eqn:E; [|reflexivity].
  cbn [filter] in *. rewrite IH.
  destruct (p x) eqn:Px; [|reflexivity].
  destruct (p y) eqn:Py; [|reflexivity].
  rewrite (ties x y Px Py) in E. discriminate.
Qed.

Lemma Array_sort_stable (l : list A) :
  filter p (Array_sort after l) = filter p l.
Proof.
  induction l as [|x r IH]; [reflexivity|].
  cbn [Array_sort fold_right]. rewrite insert_filter.
  cbn [filter]. unfold Array_sort in IH. now rewrite IH.
Qed.
End Stable.

Section Ordered.
Variable good : A -> Prop.
Variable le : A -> A -> Prop.
Hypothesis before_le :
  forall x y, good x -> good y -> after x y = false -> le x y.
Hypothesis after_le :
  forall x y, good x -> good y -> after x y = true -> le y x.
Hypothesis le_trans :
  forall x y z, good x -> good y -> good z -> le x y -> le y z -> le x z.

Lemma insert_sorted (x : A) (l : list A) :
  good x -> Forall good l ->
  StronglySorted le l -> StronglySorted le (insert after x l).
Proof.
  intros Gx. induction l as [|y r IH]; intros Gl Sl; cbn [insert].
  - repeat constructor.
  - inversion Gl as [|? ? Gy Gr]; subst.
    inversion Sl as [|? ? Sr Hy]; subst.
    destruct (after x y) eqn:E.
    + constructor; [now apply IH|].
      apply Forall_forall. intros z Hz.
      apply (Permutation_in _ (insert_perm x r)) in Hz.
      destruct Hz as [<-|Hz]; [now apply after_le|].
      rewrite Forall_forall in Hy. now apply Hy.
    + constructor; [assumption|].
      constructor; [now apply before_le|].
      rewrite Forall_forall in *. intros z Hz.
      apply (le_trans x y z); auto.
Qed.

Lemma Array_sort_sorted (l : list A) :
  Forall good l -> StronglySorted le (Array_sort after l).
Proof.
  induction l as [|x r IH]; intros Gl; cbn [Array_sort fold_right].
  - constructor.
  - inversion Gl as [|? ? Gx Gr]; subst.
    apply insert_sorted; [assumption| |now apply IH].
    apply Forall_forall. intros z Hz.
    apply (Permutation_in _ (Array_sort_perm r)) in Hz.
    rewrite Forall_forall in Gr. now apply Gr.
Qed.
End Ordered.
End SortFacts.

Lemma firstn_filter_prefix {A : Type} (p : A -> bool) (n : nat) (l : list A) :
  exists rest, filter p l = filter p (firstn n l) ++ rest.
Proof.
  exists (filter p (skipn n l)).
  rewrite <- filter_app. now rewrite firstn_skipn.
Qed.

Lemma StronglySorted_firstn {A : Type} (R : A -> A -> Prop) (n : nat)
    (l : list A) :
  StronglySorted R l -> StronglySorted R (firstn n l).
Proof.
  intros S. revert n. induction S as [|x l S IH Hx]; intros [|n]; cbn;
    try constructor; auto.
  rewrite Forall_forall in *. intros y Hy. apply Hx.
  rewrite <- (firstn_skipn n l). apply in_or_app. now left.
Qed.

Lemma StronglySorted_map {A B : Type} (f : A -> B) (R : B -> B -> Prop)
    (l : list A) :
  StronglySorted (fun x y => R (f x) (f y)) l -> StronglySorted R (map f l).
Proof.
  induction 1 as [|x l S IH Hx]; cbn; constructor; auto.
  rewrite Forall_forall in *. intros y Hy.
  apply in_map_iff in Hy. destruct Hy as [z [<- Hz]]. auto.
Qed.

(** ** The rankings *)

Import Leaderboard Observed.

Lemma compose_top_eq (n : nat) (players : list object) :
  compose_top n players =
  (by_enemies (by_coins players),
   times <- allFastestTimes (by_enemies (by_coins players)) ;;
   Ok (VObj [("topCoins", VArr (coins_ranking n players));
             ("topEnemies", VArr (enemies_ranking n players));
             ("allFastestTimes", VArr times)])).
Proof. reflexivity. Qed.

Lemma metrics_label (field label : string) :
  In (field, label) metrics -> (label =? "username") = false.
Proof.
  intros [E|[E|[]]]; inversion E; reflexivity.
Qed.

Lemma get_ranked (field label : string) (p : object) :
  (label =? "username") = false ->
  get_prop (ranked field label p) label = metric field p.
Proof.
  intros H. unfold get_prop, ranked. cbn [own_props assoc].
  now rewrite H, String.eqb_refl.
Qed.

Lemma shown_ranked (field label : string) (p : object) :
  (label =? "username") = false ->
  shown label (ranked field label p) = rank_key field p.
Proof. intros H. unfold shown. now rewrite get_ranked. Qed.

Lemma numeric_field_ranks_as_number (field : string) (p : object) :
  match assoc field p with
  | VUndef | VNull | VNum _ => True
  | _ => False
  end ->
  ranks_as_number field p.
Proof.
  unfold ranks_as_number, rank_key, metric, or_else.
  destruct (assoc field p) as [| | |x| | |]; try contradiction;
    try reflexivity.
  intros _. destruct x as [| | |q]; try reflexivity.
  cbn [ToBoolean]. destruct (negb (Qeq_bool q 0)); reflexivity.
Qed.

Lemma filter_map_comm {A B : Type} (f : A -> B) (q : B -> bool) (l : list A) :
  filter q (map f l) = map f (filter (fun x => q (f x)) l).
Proof.
  induction l as [|x r IH]; cbn; [reflexivity|].
  destruct (q (f x)); cbn; now rewrite IH.
Qed.

Lemma sorted_by_field (field : string) (players : list object) :
  Forall (ranks_as_number field) players ->
  StronglySorted
    (fun a b => num_leb (rank_key field b) (rank_key field a) = true)
    (Array_sort (descending field) players).
Proof.
  apply Array_sort_sorted.
  - intros a b Ga Gb H. now apply is_positive_sub_false.
  - intros a b _ _ H. now apply is_positive_sub_true in H.
  - intros a b c _ _ _ Hab Hbc. now apply (num_leb_trans _ (rank_key field b)).
Qed.

Lemma StronglySorted_impl {A : Type} (R R' : A -> A -> Prop) (l : list A) :
  (forall x y, R x y -> R' x y) -> StronglySorted R l -> StronglySorted R' l.
Proof.
  intros H. induction 1 as [|x r S IH Hx]; constructor; auto.
  eapply Forall_impl; [|exact Hx]. auto.
Qed.

Lemma topN_descending (field label : string) (n : nat)
    (players : list object) :
  (label =? "username") = false ->
  Forall (ranks_as_number field) players ->
  descending_by label (snd (topN field label n players)).
Proof.
  intros Hl G. unfold descending_by, topN, slice0. cbn [snd].
  apply StronglySorted_map, StronglySorted_firstn.
  eapply StronglySorted_impl; [|apply sorted_by_field; exact G].
  intros a b H. cbn beta in H |- *. now rewrite !shown_ranked.
Qed.

Lemma topN_stable (field label : string) (n : nat) (players : list object) :
  (label =? "username") = false ->
  stable_wrt field label players (snd (topN field label n players)).
Proof.
  intros Hl v. unfold topN, slice0. cbn [snd].
  set (p := fun q : object => num_eqb (rank_key field q) v).
  destruct (firstn_filter_prefix p n (Array_sort (descending field) players))
    as [rest E].
  rewrite (Array_sort_stable (descending field) p) in E.
  - exists (map (ranked field label) rest).
    rewrite filter_map_comm, <- map_app, E. f_equal. f_equal.
    apply filter_ext. intros q. now rewrite shown_ranked.
  - intros x y Px Py. unfold descending. now apply (num_eqb_sub _ _ v).
Qed.

Lemma topN_length (field label : string) (n : nat) (players : list object) :
  List.length (snd (topN field label n players))
  = Nat.min n (List.length players).
Proof.
  unfold topN, slice0. cbn [snd].
  now rewrite length_map, length_firstn, Array_sort_length.
Qed.

Lemma num_leb_zero_not_positive (x : number) :
  num_leb x zero = true -> is_positive x = false.
Proof.
  destruct x as [| | |a]; cbn [num_leb is_positive zero]; try congruence.
  intros H. now rewrite H.
Qed.

Lemma falsy_metric (field : string) (p : object) :
  ToBoolean (assoc field p) = false -> metric field p = num 0.
Proof. intros H. unfold metric, or_else. now rewrite H. Qed.

Lemma StronglySorted_after {A : Type} (R : A -> A -> Prop)
    (pre post : list A) (x : A) :
  StronglySorted R (pre ++ x :: post) -> Forall (R x) post.
Proof.
  induction pre as [|y pre IH]; cbn; intros S; inversion S; subst; auto.
Qed.

Import Sample.

(** ** The order of the array after the two sorts *)

Import Ordering.



Lemma sort_keeps_ties (field : string) (v : number) (l : list object) :
  filter (having field v) (Array_sort (descending field) l)
  = filter (having field v) l.
Proof.
  apply Array_sort_stable. intros x y Px Py.
  unfold descending. now apply (num_eqb_sub _ _ v).
Qed.


(** ** The claims about the rankings *)

(** The scan order is not the order in which ties on enemies are broken:
    for the players [a] and [b], tied on enemies and met in this order
    by the scan, the ranking by enemies shows [b] first, because the
    sort by coins has already moved [b] ahead of [a] in the array. So
    claim C1 as it is stated does not hold of the ranking by enemies. *)
Lemma C1_counterexample :
  enemies_ranking 10 tied_enemies
  = [VObj [("username", VStr "b"); ("enemies", num 5)];
     VObj [("username", VStr "a"); ("enemies", num 5)]]
  /\ ~ stable_wrt "enemies-defeated" "enemies" tied_enemies
        (enemies_ranking 10 tied_enemies).
Proof.
  split; [reflexivity|].
  intros H. destruct (H (Fin 5)) as [rest E].
  vm_compute in E. discriminate E.
Qed.

(** C1, amended. For players whose metrics convert to numbers: both
    rankings are sorted descending by the number they show; the ranking
    by coins is stable with respect to the scan order; the ranking by
    enemies is stable with respect to the array as the sort by coins has
    left it, which holds the scanned players by coins descending with
    equal coins in scan order, so that ties on enemies are broken by
    coins descending and then by scan order, not by scan order alone.
    For the scan [a:5, b:5, c:9] the two best by coins are [c:9, a:5]. *)
Theorem C1_rankings_sorted_and_stable (n : nat) (players : list object) :
  (Forall (ranks_as_number "coins-collected") players ->
   descending_by "coins" (coins_ranking n players))
  /\ (Forall (ranks_as_number "enemies-defeated") players ->
      descending_by "enemies" (enemies_ranking n players))
  /\ (Forall (ranks_as_number "coins-collected") players ->
      stable_wrt "coins-collected" "coins" players (coins_ranking n players))
  /\ (Forall (ranks_as_number "coins-collected") players ->
      Forall (ranks_as_number "enemies-defeated") players ->
      stable_wrt "enemies-defeated" "enemies" (by_coins players)
        (enemies_ranking n players)
      /\ Permutation players (by_coins players)
      /\ StronglySorted (by_desc "coins-collected") (by_coins players)
      /\ forall c,
           filter (having "coins-collected" c) (by_coins players)
           = filter (having "coins-collected" c) players)
  /\ coins_ranking 2 tied_coins
     = [VObj [("username", VStr "c"); ("coins", num 9)];
        VObj [("username", VStr "a"); ("coins", num 5)]].
Proof.
  split; [|split; [|split; [|split]]].
  - now apply topN_descending.
  - intros G. apply topN_descending; [reflexivity|].
    eapply Permutation_Forall; [|exact G].
    symmetry. apply Array_sort_perm.
  - intros _. now apply topN_stable.
  - intros Gc Ge. split; [now apply topN_stable|]. split; [|split].
    + symmetry. apply Array_sort_perm.
    + now apply sorted_by_field.
    + intros c. apply sort_keeps_ties.
  - reflexivity.
Qed.

Lemma C1_rankings_sorted_and_stable_witness :
  descending_by "coins" (coins_ranking 10 tied_enemies)
  /\ descending_by "enemies" (enemies_ranking 10 tied_enemies)
  /\ stable_wrt "coins-collected" "coins" tied_enemies
       (coins_ranking 10 tied_enemies)
  /\ stable_wrt "enemies-defeated" "enemies" (by_coins tied_enemies)
       (enemies_ranking 10 tied_enemies).
Proof.
  destruct (C1_rankings_sorted_and_stable 10 tied_enemies)
    as (Hc & He & Sc & Se & _).
  assert (Gc : Forall (ranks_as_number "coins-collected") tied_enemies)
    by (repeat constructor).
  assert (Ge : Forall (ranks_as_number "enemies-defeated") tied_enemies)
    by (repeat constructor).
  split; [exact (Hc Gc)|]. split; [exact (He Ge)|].
  split; [exact (Sc Gc)|]. exact (proj1 (Se Gc Ge)).
Defined.

(** A field holding a text that is not a number is not shown as 0 and
    does not rank below a positive value: the player with the coins
    ["abc"] stays ahead of the player with nine coins and is shown with
    ["abc"]. So claim C7 as it is stated does not hold of a field that
    does not parse. *)
Lemma C7_counterexample :
  isNaN (ToNumber (VStr "abc")) = true
  /\ coins_ranking 10 text_coins
     = [VObj [("username", VStr "x"); ("coins", VStr "abc")];
        VObj [("username", VStr "y"); ("coins", num 9)]]
  /\ get_prop (nth 0 (coins_ranking 10 text_coins) VUndef) "coins" <> num 0.
Proof.
  split; [reflexivity|]. split; [reflexivity|].
  vm_compute. discriminate.
Qed.

(** C7, amended. A metric field that is absent, [null] or otherwise falsy
    (0, NaN, the empty text, [false]) is shown as 0 in the ranking, and
    when the metric of every player converts to a number, no entry that
    follows it in the ranking shows a positive value. The ranking is a
    total function: nothing is thrown. *)
Theorem C7_falsy_metric_ranks_as_zero (field label : string) (n : nat)
    (players : list object) (p : object) :
  In (field, label) metrics ->
  ToBoolean (assoc field p) = false ->
  get_prop (ranked field label p) label = num 0
  /\ (Forall (ranks_as_number field) players ->
      forall pre post,
        snd (topN field label n players) = pre ++ ranked field label p :: post ->
        Forall (fun e => is_positive (shown label e) = false) post).
Proof.
  intros Hm Hp. apply metrics_label in Hm.
  assert (Hz : get_prop (ranked field label p) label = num 0).
  { rewrite get_ranked by assumption. now apply falsy_metric. }
  split; [exact Hz|].
  intros G pre post E.
  pose proof (topN_descending field label n players Hm G) as S.
  unfold descending_by in S. rewrite E in S.
  apply StronglySorted_after in S.
  eapply Forall_impl; [|exact S].
  intros e He. cbn beta in He. apply num_leb_zero_not_positive.
  unfold shown at 2 in He. now rewrite Hz in He.
Qed.

Lemma C7_falsy_metric_ranks_as_zero_witness :
  get_prop (ranked "coins-collected" "coins" [("username", VStr "x")]) "coins"
  = num 0
  /\ Forall (fun e => is_positive (shown "coins" e) = false) [].
Proof.
  destruct (C7_falsy_metric_ranks_as_zero "coins-collected" "coins" 10
              no_coins [("username", VStr "x")]) as [H0 Hafter].
  - left. reflexivity.
  - reflexivity.
  - split; [exact H0|].
    apply (Hafter ltac:(repeat constructor)
             [VObj [("username", VStr "y"); ("coins", num 9)]] []).
    reflexivity.
Defined.

(** C8. A ranking of at most [n] entries has [min n (number of players)]
    entries, for either metric; the handler builds both rankings with
    [n = 10]. *)
Theorem C8_ranking_length (n : nat) (players : list object) :
  List.length (coins_ranking n players) = Nat.min n (List.length players)
  /\ List.length (enemies_ranking n players)
     = Nat.min n (List.length players)
  /\ (forall field label,
        List.length (snd (topN field label n players))
        = Nat.min n (List.length players))
  /\ snd (compose players)
     = (times <- aggregate players ;;
        Ok (VObj [("topCoins", VArr (coins_ranking 10 players));
                  ("topEnemies", VArr (enemies_ranking 10 players));
                  ("allFastestTimes", VArr times)])).
Proof.
  repeat split.
  - apply topN_length.
  - unfold enemies_ranking, topEnemies. rewrite topN_length.
    cbn [topCoins topN fst]. now rewrite Array_sort_length.
  - intros. apply topN_length.
Qed.

(** ** The claims about the request as a whole *)

Lemma Array_map_throws {A B : Type} (f : A -> result B) (pre post : list A)
    (x : A) (e : error) :
  f x = Throw e -> exists e', Array_map f (pre ++ x :: post) = Throw e'.
Proof.
  intros Hx. induction pre as [|y pre [e' IH]]; cbn [app Array_map].
  - rewrite Hx. now exists e.
  - destruct (f y) as [b|e0]; cbn [bind].
    + rewrite IH. now exists e'.
    + now exists e0.
Qed.




(** C6, at the failing input: a scan that rejects. The leaderboard
    handler answers with the status ['400'], a client error and not a
    server error, whatever the error is. The stats-update handler
    answers a failure of its own call to the store with 500. *)
Theorem C6_scan_failure_answers_400 (JSON_stringify : value -> string)
    (err : error) :
  let r := Leaderboard.handler JSON_stringify (Throw err) GET in
  statusCode r = VStr "400"
  /\ is_client_error r = true
  /\ is_server_error r = false
  /\ body r = JSON_stringify (VObj [("error", VStr (message err))])
  /\ forall JSON_parse c u q,
       let r' := UpdatePlayerStats.handler JSON_parse JSON_stringify
                   (fun _ => Throw err)
                   (UpdatePlayerStats.mkEvent
                      (Some (("username", String c u) :: q))) in
       statusCode r' = num 500 /\ is_server_error r' = true.
Proof.
  cbv zeta. repeat split.
  - unfold UpdatePlayerStats.handler, UpdatePlayerStats.param.
    cbn [UpdatePlayerStats.queryStringParameters find fst snd String.eqb
         Ascii.eqb Bool.eqb].
    destruct (UpdatePlayerStats.item _ _ _); reflexivity.
  - unfold UpdatePlayerStats.handler, UpdatePlayerStats.param.
    cbn [UpdatePlayerStats.queryStringParameters find fst snd String.eqb
         Ascii.eqb Bool.eqb].
    destruct (UpdatePlayerStats.item _ _ _); reflexivity.
Qed.

(** C9. For a scan that yields no item the request composes three empty
    sequences and answers ['200'] with them. *)
Theorem C9_empty_scan (JSON_stringify : value -> string) :
  snd (compose [])
  = Ok (VObj [("topCoins", VArr []);
              ("topEnemies", VArr []);
              ("allFastestTimes", VArr [])])
  /\ Leaderboard.handler JSON_stringify (Ok (mkScan (Some []))) GET
     = mkResponse (VStr "200")
         (JSON_stringify (VObj [("topCoins", VArr []);
                                ("topEnemies", VArr []);
                                ("allFastestTimes", VArr [])]))
         (Some cors).
Proof. split; reflexivity. Qed.

(** C2, at the failing inputs. A level whose [L] is not a list, or whose
    list holds a [null], makes the entry of its player throw; any scan
    that contains such an item fails as a whole, and the request is
    answered ['400'] with no leaderboard at all. The update handler
    writes such an item for a request that submits the level. *)
Theorem C2_corrupt_level_fails_the_request (JSON_stringify : value -> string) :
  fastest_entry corrupt_level
  = Throw (TypeError "times[level].L.map is not a function")
  /\ fastest_entry null_time
     = Throw (TypeError "Cannot read properties of null (reading 'N')")
  /\ (forall pre post,
        exists e, snd (compose (pre ++ corrupt_level :: post)) = Throw e)
  /\ (exists it,
        UpdatePlayerStats.item sample_parse "u" corrupt_event = Ok it
        /\ assoc "fastest-times" it = assoc "fastest-times" corrupt_level
        /\ fastest_entry it
           = Throw (TypeError "times[level].L.map is not a function"))
  /\ Leaderboard.handler JSON_stringify
       (Ok (mkScan (Some [player "a" 1 1; corrupt_level]))) GET
     = mkResponse (VStr "400")
         (JSON_stringify
            (VObj [("error", VStr "times[level].L.map is not a function")]))
         (Some cors).
Proof.
  split; [reflexivity|]. split; [reflexivity|].
  split; [|split; [eexists; repeat split; reflexivity | reflexivity]].
  intros pre post.
  assert (Hin : In corrupt_level
                   (by_enemies (by_coins (pre ++ corrupt_level :: post)))).
  { unfold by_enemies, by_coins. rewrite !Array_sort_In.
    apply in_or_app. right. now left. }
  apply in_split in Hin. destruct Hin as (l1 & l2 & E).
  unfold compose. rewrite compose_top_eq. cbn [snd]. rewrite E.
  unfold allFastestTimes.
  destruct (Array_map_throws fastest_entry l1 l2 corrupt_level _ eq_refl)
    as [e He].
  exists e. now rewrite He.
Qed.

(** ** The loop over the levels *)

Lemma assoc_set_prop_same (k : string) (v : value) (ps : object) :
  assoc k (set_prop k v ps) = v.
Proof.
  induction ps as [|[k' v'] r IH]; cbn [set_prop assoc].
  - now rewrite String.eqb_refl.
  - destruct (k =? k') eqn:E; cbn [assoc]; [now rewrite String.eqb_refl|].
    now rewrite E.
Qed.

Lemma assoc_set_prop_other (k k' : string) (v : value) (ps : object) :
  k <> k' -> assoc k (set_prop k' v ps) = assoc k ps.
Proof.
  intros N. apply String.eqb_neq in N.
  induction ps as [|[k'' v''] r IH]; cbn [set_prop assoc].
  - now rewrite N.
  - destruct (k' =? k'') eqn:E; cbn [assoc].
    + apply String.eqb_eq in E. subst k''. now rewrite N.
    + now rewrite IH.
Qed.

Lemma has_key_set_prop_same (k : string) (v : value) (ps : object) :
  has_key k (set_prop k v ps) = true.
Proof.
  induction ps as [|[k' v'] r IH]; cbn [set_prop has_key].
  - now rewrite String.eqb_refl.
  - destruct (k =? k') eqn:E; cbn [has_key].
    + now rewrite String.eqb_refl.
    + now rewrite E, IH.
Qed.

Lemma has_key_set_prop_other (k k' : string) (v : value) (ps : object) :
  k <> k' -> has_key k (set_prop k' v ps) = has_key k ps.
Proof.
  intros N. apply String.eqb_neq in N.
  induction ps as [|[k'' v''] r IH]; cbn [set_prop has_key].
  - now rewrite N.
  - destruct (k' =? k'') eqn:E; cbn [has_key].
    + apply String.eqb_eq in E. subst k''. now rewrite N.
    + now rewrite IH.
Qed.

Lemma assoc_not_undefined (k : string) (ps : object) :
  assoc k ps <> VUndef -> In k (map fst ps).
Proof.
  induction ps as [|[k' v'] r IH]; cbn [assoc map fst]; [congruence|].
  destruct (k =? k') eqn:E.
  - apply String.eqb_eq in E. now left.
  - right. auto.
Qed.

Lemma tagged_list_key (times : value) (level : string) :
  ToBoolean (tagged_list times level) = true ->
  In level (for_in_keys times).
Proof.
  intros H. apply assoc_not_undefined. intros E.
  unfold tagged_list, get_prop in H. rewrite E in H. discriminate.
Qed.

Lemma Array_map_time_of (elems : list value) :
  forallb not_nullish elems = true ->
  Array_map time_of elems
  = Ok (map (fun e => parseFloat_value (get_prop e "N")) elems).
Proof.
  induction elems as [|e r IH]; cbn [forallb Array_map map]; [reflexivity|].
  intros H. apply andb_prop in H. destruct H as [He Hr].
  rewrite (IH Hr).
  destruct e; try discriminate He; reflexivity.
Qed.

Lemma level_turn_list (times : value) (level : string) (elems : list value)
    (acc : object) :
  tagged_list times level = VArr elems ->
  forallb not_nullish elems = true ->
  level_turn times level acc
  = Ok (set_prop level (VArr (map VNum (sorted_times elems))) acc).
Proof.
  intros E H. unfold level_turn. rewrite E. cbn [ToBoolean].
  now rewrite Array_map_time_of.
Qed.

Lemma level_turn_skip (times : value) (level : string) (acc : object) :
  ToBoolean (tagged_list times level) = false ->
  level_turn times level acc = Ok acc.
Proof. intros H. unfold level_turn. now rewrite H. Qed.

Lemma well_shaped_cases (L : value) :
  well_shaped L = true ->
  (exists elems, L = VArr elems /\ forallb not_nullish elems = true)
  \/ ToBoolean L = false.
Proof.
  destruct L; cbn [well_shaped]; intros H;
    try (right; now apply negb_true_iff in H).
  left. eauto.
Qed.

(** What the loop leaves in [fastestTimes], when every level it visits is
    well shaped. *)
Lemma for_levels_spec (times : value) (levels : list string) :
  forallb (fun level => well_shaped (tagged_list times level)) levels = true ->
  forall acc, exists ft,
    for_levels times levels acc = Ok ft
    /\ forall k,
         (forall elems,
            In k levels -> tagged_list times k = VArr elems ->
            assoc k ft = VArr (map VNum (sorted_times elems))
            /\ has_key k ft = true)
         /\ (~ In k levels \/ ToBoolean (tagged_list times k) = false ->
             assoc k ft = assoc k acc /\ has_key k ft = has_key k acc).
Proof.
  induction levels as [|level rest IH]; cbn [forallb for_levels].
  - intros _ acc. exists acc. split; [reflexivity|].
    intros k. split; [intros elems []|auto].
  - intros H acc. apply andb_prop in H. destruct H as [Hl Hr].
    apply well_shaped_cases in Hl.
    destruct Hl as [(elems & E & Hn)|Hf].
    + rewrite (level_turn_list _ _ _ _ E Hn). cbn [bind].
      destruct (IH Hr (set_prop level (VArr (map VNum (sorted_times elems)))
                         acc)) as (ft & Eft & Hft).
      exists ft. split; [exact Eft|]. intros k.
      destruct (Hft k) as [H1 H2]. split.
      * intros elems' Hin Ek.
        destruct (in_dec string_dec k rest) as [Hk|Hk]; [now apply H1|].
        destruct Hin as [<-|Hin]; [|contradiction].
        rewrite E in Ek. injection Ek as <-.
        destruct (H2 (or_introl Hk)) as [-> ->].
        now rewrite assoc_set_prop_same, has_key_set_prop_same.
      * intros Hk.
        assert (Hne : k <> level).
        { intros ->. destruct Hk as [Hk|Hk]; [apply Hk; now left|].
          rewrite E in Hk. discriminate. }
        assert (Hk' : ~ In k rest \/ ToBoolean (tagged_list times k) = false).
        { destruct Hk as [Hk|Hk]; [left|now right].
          intros Hin. apply Hk. now right. }
        destruct (H2 Hk') as [-> ->].
        now rewrite assoc_set_prop_other, has_key_set_prop_other.
    + rewrite (level_turn_skip _ _ _ Hf). cbn [bind].
      destruct (IH Hr acc) as (ft & Eft & Hft).
      exists ft. split; [exact Eft|]. intros k.
      destruct (Hft k) as [H1 H2]. split.
      * intros elems' Hin Ek.
        destruct Hin as [<-|Hin]; [|now apply H1].
        rewrite Ek in Hf. discriminate.
      * intros Hk. apply H2.
        destruct Hk as [Hk|Hk]; [left|now right].
        intros Hin. apply Hk. now right.
Qed.

Lemma sorted_times_sorted (elems : list value) :
  StronglySorted (fun a b => num_leb a b = true) (sorted_times elems).
Proof.
  unfold sorted_times.
  apply (Array_sort_sorted ascending (fun t => isNaN t = false)).
  - intros a b Ga Gb H. now apply is_positive_sub_false.
  - intros a b _ _ H. now apply is_positive_sub_true in H.
  - intros a b c _ _ _. apply num_leb_trans.
  - unfold parsed_times. apply Forall_forall. intros t Ht.
    apply filter_In in Ht. destruct Ht as [_ Ht].
    now apply negb_true_iff in Ht.
Qed.







(** ** The claims about the fastest times *)

(** For a player whose levels are well shaped, the object built for
    its fastest times holds, under every level that carries a list under
    [L], the values its elements parse to, the failures dropped, in
    ascending order (an empty list when none parses), and holds no key
    for a level without [L]. *)
Lemma tagged_times_normalized (player levels : object) :
  assoc "fastest-times" player = VObj levels ->
  times_well_shaped player = true ->
  (exists fastestTimes,
     fastestTimes_of player = Ok fastestTimes
     /\ (forall level elems,
           tagged_list (VObj levels) level = VArr elems ->
           assoc level fastestTimes = VArr (map VNum (sorted_times elems))
           /\ has_key level fastestTimes = true
           /\ StronglySorted (fun a b => num_leb a b = true)
                (sorted_times elems)
           /\ Permutation (sorted_times elems) (parsed_times elems)
           /\ (parsed_times elems = [] ->
               assoc level fastestTimes = VArr []))
     /\ (forall level,
           ToBoolean (tagged_list (VObj levels) level) = false ->
           has_key level fastestTimes = false))
  /\ fastestTimes_of tagged_level1
     = Ok [("level1", VArr [VNum (Fin (16 # 5)); VNum (Fin (25 # 2))])].
Proof.
  intros Et Hw. split; [|reflexivity].
  unfold times_well_shaped, fastestTimes_of in *. rewrite Et in *.
  cbn [ToBoolean typeof_object andb] in *.
  destruct (for_levels_spec _ _ Hw []) as (ft & E & Hft).
  exists ft. split; [exact E|]. split.
  - intros level elems El.
    assert (Hin : In level (for_in_keys (VObj levels))).
    { apply tagged_list_key. now rewrite El. }
    destruct (proj1 (Hft level) elems Hin El) as [Ha Hk].
    repeat split; auto.
    + apply sorted_times_sorted.
    + apply Array_sort_perm.
    + intros Hp. rewrite Ha. unfold sorted_times. now rewrite Hp.
  - intros level Hf.
    destruct (proj2 (Hft level) (or_intror Hf)) as [_ Hk].
    now rewrite Hk.
Qed.




(** ** Written by the update handler, read by the leaderboard *)

Lemma string_of_nat_parses (n : nat) :
  NilZero.uint_of_string (string_of_nat n) <> None.
Proof.
  unfold string_of_nat.
  destruct (NilZero.usu_gen (Nat.to_uint n)) as [E|E]; rewrite E; discriminate.
Qed.

Lemma assoc_combine_absent (k : string) (ks : list string) (l : list value) :
  Forall (fun s => s <> k) ks -> assoc k (combine ks l) = VUndef.
Proof.
  intros H. revert l.
  induction H as [|s r Hs Hr IH]; intros [|v l]; cbn [combine assoc]; auto.
  assert (E : (k =? s) = false) by (apply String.eqb_neq; congruence).
  now rewrite E.
Qed.

(** An array has no property under a name that is not a number. *)
Lemma array_no_prop (k : string) (l : list value) :
  NilZero.uint_of_string k = None -> get_prop (VArr l) k = VUndef.
Proof.
  intros Hk. unfold get_prop, own_props, indexed.
  apply assoc_combine_absent, Forall_forall. intros s Hs.
  apply in_map_iff in Hs. destruct Hs as (n & <- & _).
  intros E. apply (string_of_nat_parses n). now rewrite E.
Qed.

Lemma assoc_forallb (f : value -> bool) (k : string) (ps : object) :
  forallb (fun kv => f (snd kv)) ps = true ->
  assoc k ps = VUndef \/ f (assoc k ps) = true.
Proof.
  induction ps as [|[k' v] r IH]; cbn [forallb assoc snd]; [auto|].
  intros H. apply andb_prop in H. destruct H as [Hv Hr].
  destruct (k =? k'); auto.
Qed.

Lemma plain_arrays_untagged (levels : object) (level : string) :
  forallb (fun kv => is_array (snd kv)) levels = true ->
  tagged_list (VObj levels) level = VUndef.
Proof.
  intros H. unfold tagged_list.
  change (get_prop (VObj levels) level) with (assoc level levels).
  destruct (assoc_forallb is_array level levels H) as [E|E].
  - now rewrite E.
  - destruct (assoc level levels); try discriminate E.
    now apply array_no_prop.
Qed.

Lemma for_levels_untagged (times : value) (levels : list string)
    (acc : object) :
  (forall level, tagged_list times level = VUndef) ->
  for_levels times levels acc = Ok acc.
Proof.
  intros H. induction levels as [|level rest IH]; cbn [for_levels];
    [reflexivity|].
  rewrite level_turn_skip by now rewrite H. exact IH.
Qed.

(** C10. For a request with a user name whose [fastestTimes] text parses
    to an object whose levels are plain arrays: the update handler hands
    to the store, for any store, exactly the item that holds that object
    as it is under ["fastest-times"], with no [L] wrapper, and answers
    200 with this item when the store accepts it and 500 when the store
    rejects it; and the entry the leaderboard builds for this item has
    an empty [fastestTimes]: every level is skipped. *)
Theorem C10_written_times_are_lost
    (JSON_parse : string -> result value) (JSON_stringify : value -> string)
    (username : string) (ev : UpdatePlayerStats.event)
    (parsedLevels : value) (levels : object) :
  UpdatePlayerStats.param ev "username" = Some username ->
  username <> "" ->
  JSON_parse
    (UpdatePlayerStats.or_default
       (UpdatePlayerStats.param ev "levelsCompleted") "[]") = Ok parsedLevels ->
  JSON_parse
    (UpdatePlayerStats.or_default
       (UpdatePlayerStats.param ev "fastestTimes") "{}") = Ok (VObj levels) ->
  forallb (fun kv => is_array (snd kv)) levels = true ->
  exists it,
    UpdatePlayerStats.item JSON_parse username ev = Ok it
    /\ assoc "username" it = VStr username
    /\ assoc "fastest-times" it = VObj levels
    /\ (forall put : object -> result unit,
          UpdatePlayerStats.handler JSON_parse JSON_stringify put ev
          = match put it with
            | Ok _ =>
                mkResponse (num 200)
                  (JSON_stringify
                     (VObj [("message",
                             VStr "Player stats overwritten successfully.");
                            ("data", VObj it)]))
                  (Some UpdatePlayerStats.ok_headers)
            | Throw err =>
                mkResponse (num 500)
                  (JSON_stringify
                     (VObj [("message",
                             VStr "Failed to update player stats.");
                            ("error", VObj (enumerable err))]))
                  None
            end)
    /\ fastest_entry it
       = Ok (VObj [("username", VStr username); ("fastestTimes", VObj [])]).
Proof.
  intros Eu Nu El Et Ha.
  eexists. split; [|split; [|split; [|split]]].
  - unfold UpdatePlayerStats.item. rewrite El, Et. cbn [bind]. reflexivity.
  - reflexivity.
  - reflexivity.
  - intros put. unfold UpdatePlayerStats.handler. rewrite Eu.
    destruct username as [|c u]; [contradiction|].
    unfold UpdatePlayerStats.item. rewrite El, Et. cbn [bind].
    destruct (put _); reflexivity.
  - unfold fastest_entry, fastestTimes_of.
    cbn [assoc String.eqb Ascii.eqb Bool.eqb ToBoolean typeof_object andb].
    rewrite for_levels_untagged; [reflexivity|].
    intros level. now apply plain_arrays_untagged.
Qed.

Lemma C10_written_times_are_lost_witness :
  exists it,
    UpdatePlayerStats.item sample_parse "u" update_event = Ok it
    /\ assoc "fastest-times" it = VObj [("level1", VArr [VNum (Fin (16 # 5))])]
    /\ statusCode (UpdatePlayerStats.handler sample_parse (fun _ => "")
                     (fun _ => Ok tt) update_event) = num 200
    /\ statusCode (UpdatePlayerStats.handler sample_parse (fun _ => "")
                     (fun _ => Throw (Error "down")) update_event) = num 500
    /\ fastest_entry it
       = Ok (VObj [("username", VStr "u"); ("fastestTimes", VObj [])]).
Proof.
  destruct (C10_written_times_are_lost sample_parse (fun _ => "") "u"
              update_event (VArr [])
              [("level1", VArr [VNum (Fin (16 # 5))])]
              eq_refl ltac:(discriminate) eq_refl eq_refl eq_refl)
    as (it & E & _ & T & H & F).
  exists it. split; [exact E|]. split; [exact T|].
  split; [now rewrite (H (fun _ => Ok tt))|].
  split; [now rewrite (H (fun _ => Throw (Error "down")))|exact F].
Defined.

(** ** Further properties of the rankings *)

Lemma StronglySorted_app_inv {A : Type} (R : A -> A -> Prop)
    (l1 l2 : list A) :
  StronglySorted R (l1 ++ l2) ->
  forall p q, In p l1 -> In q l2 -> R p q.
Proof.
  induction l1 as [|x l1 IH]; cbn [app]; intros S p q Hp Hq; [destruct Hp|].
  inversion S as [|? ? S' Hx]; subst.
  destruct Hp as [<-|Hp]; [|now apply IH].
  rewrite Forall_forall in Hx. apply Hx, in_or_app. now right.
Qed.

(** A ranking holds the [n] greatest: the sorted array splits into the
    players that are ranked and the players that are left out, and no
    player left out has a greater metric than a ranked one. *)
Theorem topN_selects_greatest (field label : string) (n : nat)
    (players : list object) :
  Forall (ranks_as_number field) players ->
  exists kept dropped,
    fst (topN field label n players) = kept ++ dropped
    /\ snd (topN field label n players) = map (ranked field label) kept
    /\ List.length kept = Nat.min n (List.length players)
    /\ Permutation players (kept ++ dropped)
    /\ forall p q, In p kept -> In q dropped ->
         num_leb (rank_key field q) (rank_key field p) = true.
Proof.
  intros G.
  exists (firstn n (Array_sort (descending field) players)),
         (skipn n (Array_sort (descending field) players)).
  rewrite firstn_skipn. repeat split.
  - now rewrite length_firstn, Array_sort_length.
  - symmetry. apply Array_sort_perm.
  - intros p q Hp Hq.
    pose proof (sorted_by_field field players G) as S.
    rewrite <- (firstn_skipn n) in S.
    exact (StronglySorted_app_inv _ _ _ S p q Hp Hq).
Qed.

Lemma topN_selects_greatest_witness :
  exists kept dropped,
    snd (topN "coins-collected" "coins" 2 tied_coins)
    = map (ranked "coins-collected" "coins") kept
    /\ Permutation tied_coins (kept ++ dropped)
    /\ forall p q, In p kept -> In q dropped ->
         num_leb (rank_key "coins-collected" q) (rank_key "coins-collected" p)
         = true.
Proof.
  destruct (topN_selects_greatest "coins-collected" "coins" 2 tied_coins)
    as (kept & dropped & _ & E & _ & P & H).
  - repeat constructor.
  - exists kept, dropped. repeat split; assumption.
Defined.

Lemma rankings_perm (n : nat) (players : list object) :
  (List.length players <= n)%nat ->
  Permutation (map (ranked "coins-collected" "coins") players)
              (coins_ranking n players)
  /\ Permutation (map (ranked "enemies-defeated" "enemies") players)
                 (enemies_ranking n players).
Proof.
  intros L. unfold coins_ranking, enemies_ranking, topCoins, topEnemies, topN.
  cbn [fst snd]. unfold slice0.
  rewrite !firstn_all2 by (rewrite ?Array_sort_length; exact L).
  split; apply Permutation_map; symmetry.
  - apply Array_sort_perm.
  - now rewrite !Array_sort_perm.
Qed.

(** With at most [n] players scanned, both rankings list every player
    exactly once. *)
Theorem rankings_list_everyone (n : nat) (players : list object) :
  (List.length players <= n)%nat ->
  Permutation (map (ranked "coins-collected" "coins") players)
              (coins_ranking n players)
  /\ Permutation (map (ranked "enemies-defeated" "enemies") players)
                 (enemies_ranking n players).
Proof. exact (rankings_perm n players). Qed.

Lemma rankings_list_everyone_witness :
  Permutation (map (ranked "coins-collected" "coins") tied_enemies)
              (coins_ranking 10 tied_enemies)
  /\ Permutation (map (ranked "enemies-defeated" "enemies") tied_enemies)
                 (enemies_ranking 10 tied_enemies).
Proof.
  apply (rankings_list_everyone 10 tied_enemies). cbn. lia.
Defined.

(** ** When the leaderboard request fails *)

Lemma Array_map_time_of_throws (elems : list value) :
  forallb not_nullish elems = false ->
  exists e, Array_map time_of elems = Throw e.
Proof.
  induction elems as [|x r IH]; cbn [forallb Array_map]; [discriminate|].
  intros H. apply andb_false_iff in H.
  destruct (not_nullish x) eqn:Hx.
  - destruct H as [H|H]; [discriminate|].
    destruct (IH H) as [e He]. rewrite He.
    destruct x; try discriminate Hx; cbn; eauto.
  - destruct x; try discriminate Hx; cbn; eauto.
Qed.

Lemma level_turn_throws (times : value) (level : string) (acc : object) :
  well_shaped (tagged_list times level) = false ->
  exists e, level_turn times level acc = Throw e.
Proof.
  unfold level_turn. destruct (tagged_list times level) as [| |b|x|s|elems|ps];
    cbn [well_shaped]; intros H;
    try (apply negb_false_iff in H; rewrite H; eauto; fail).
  cbn [ToBoolean].
  destruct (Array_map_time_of_throws elems H) as [e He].
  rewrite He. cbn. eauto.
Qed.

Lemma for_levels_throws (times : value) (levels : list string) :
  forallb (fun level => well_shaped (tagged_list times level)) levels = false ->
  forall acc, exists e, for_levels times levels acc = Throw e.
Proof.
  induction levels as [|level rest IH]; cbn [forallb for_levels];
    [discriminate|].
  intros H acc.
  destruct (well_shaped (tagged_list times level)) eqn:W.
  - cbn [andb] in H.
    destruct (well_shaped_cases _ W) as [(elems & E & Hn)|Hf].
    + rewrite (level_turn_list _ _ _ _ E Hn). cbn [bind]. now apply IH.
    + rewrite (level_turn_skip _ _ _ Hf). cbn [bind]. now apply IH.
  - destruct (level_turn_throws times level acc W) as [e He].
    rewrite He. cbn. eauto.
Qed.


(** C3, at the failing inputs. A level whose [L] is not a list is not
    skipped: next to a level in the tagged-list encoding it makes the
    whole record throw, and the times of the other level are lost. An
    element that is [null] is not discarded: it makes the record throw
    as well. Every record with a level that is not well shaped throws.
    The level [{L: [{N: "12.5"}, {N: "bad"}, {N: "3.2"}]}] alone yields
    [[3.2, 12.5]], and the times ["2e1"], ["-1.5e2"], [" 7.25abc"],
    ["e5"] yield [[-150, 7.25, 20]]. *)
Theorem C3_level_without_list_fails_the_record :
  fastestTimes_of SampleLevels.mixed_levels
  = Throw (TypeError "times[level].L.map is not a function")
  /\ fastestTimes_of SampleLevels.null_among_times
     = Throw (TypeError "Cannot read properties of null (reading 'N')")
  /\ (forall player,
        times_well_shaped player = false ->
        exists e, fastestTimes_of player = Throw e)
  /\ fastestTimes_of tagged_level1
     = Ok [("level1", VArr [VNum (Fin (16 # 5)); VNum (Fin (25 # 2))])]
  /\ fastestTimes_of SampleLevels.signed_times
     = Ok [("level1", VArr [VNum (Fin (-150 # 1)); VNum (Fin (29 # 4));
                            VNum (Fin (20 # 1))])].
Proof.
  split; [reflexivity|]. split; [reflexivity|].
  split; [|split; reflexivity].
  intros player. unfold times_well_shaped, fastestTimes_of.
  destruct (ToBoolean (assoc "fastest-times" player)
            && typeof_object (assoc "fastest-times" player));
    [|discriminate].
  intros H. exact (for_levels_throws _ _ H []).
Qed.





Ltac split_char a := destruct a as [[] [] [] [] [] [] [] []].

Ltac next_char s :=
  let a := fresh "a" in
  destruct s as [|a s]; [try reflexivity | split_char a; try reflexivity].

Lemma leaderboard_other_method (scan : result scan_output)
    (m : option string) :
  m <> Some "GET" ->
  Leaderboard.try_block scan (Leaderboard.mkEvent m)
  = Throw (Gateway.unsupported m).
Proof.
  intros H. destruct m as [s|]; [|reflexivity].
  next_char s. next_char s. next_char s. next_char s.
  now elim H.
Qed.

(** A request with another method than GET, or with none, is answered
    ['400'] with the message naming the method, whatever the scan would
    have returned: the table is not read. *)
Theorem leaderboard_rejects_other_methods
    (JSON_stringify : value -> string) (scan scan' : result scan_output)
    (m : option string) :
  m <> Some "GET" ->
  Leaderboard.handler JSON_stringify scan (Leaderboard.mkEvent m)
  = Leaderboard.handler JSON_stringify scan' (Leaderboard.mkEvent m)
  /\ Leaderboard.handler JSON_stringify scan (Leaderboard.mkEvent m)
     = mkResponse (VStr "400")
         (JSON_stringify
            (VObj [("error", VStr (message (Gateway.unsupported m)))]))
         (Some cors).
Proof.
  intros H. unfold Leaderboard.handler.
  rewrite !leaderboard_other_method by assumption. split; reflexivity.
Qed.

Lemma leaderboard_rejects_other_methods_witness :
  Leaderboard.handler (fun _ => "") (Ok (mkScan (Some tied_coins)))
    (Leaderboard.mkEvent (Some "POST"))
  = Leaderboard.handler (fun _ => "") (Throw (Error "down"))
      (Leaderboard.mkEvent (Some "POST")).
Proof.
  apply (leaderboard_rejects_other_methods (fun _ => "")
           (Ok (mkScan (Some tied_coins))) (Throw (Error "down"))
           (Some "POST")).
  discriminate.
Defined.


Lemma Array_map_Ok_Forall2 {A B : Type} (f : A -> result B) (l : list A)
    (ys : list B) :
  Array_map f l = Ok ys -> Forall2 (fun x y => f x = Ok y) l ys.
Proof.
  revert ys. induction l as [|x r IH]; cbn [Array_map]; intros ys H.
  - injection H as <-. constructor.
  - destruct (f x) as [y|e] eqn:Fx; cbn [bind] in H; [|discriminate].
    destruct (Array_map f r) as [zs|e]; cbn [bind] in H; [|discriminate].
    injection H as <-. constructor; auto.
Qed.

Lemma fastest_entry_username (player : object) (e : value) :
  fastest_entry player = Ok e ->
  get_prop e "username" = assoc "username" player.
Proof.
  unfold fastest_entry. destruct (fastestTimes_of player); cbn [bind];
    [|discriminate].
  intros H. injection H as <-. reflexivity.
Qed.

Lemma Forall2_firstn {A B : Type} (R : A -> B -> Prop) (n : nat)
    (l : list A) (l' : list B) :
  Forall2 R l l' -> Forall2 R (firstn n l) (firstn n l').
Proof.
  intros H. revert n. induction H; intros [|n]; cbn [firstn];
    constructor; auto.
Qed.

(** The time aggregation follows the ranking by enemies: its first
    entries are for the players of that ranking, in the same order,
    because both are read from the array as the sort by enemies has left
    it. *)
Theorem aggregate_follows_enemies_ranking (n : nat) (players : list object)
    (out : list value) :
  aggregate players = Ok out ->
  map (fun e => get_prop e "username") (firstn n out)
  = map (fun e => get_prop e "username") (enemies_ranking n players).
Proof.
  intros H. unfold aggregate, compose in H. rewrite compose_top_eq in H.
  cbn [fst] in H. apply Array_map_Ok_Forall2 in H.
  apply (Forall2_firstn _ n) in H.
  unfold enemies_ranking, topEnemies, topCoins, topN. cbn [fst snd].
  unfold slice0. fold (by_coins players).
  fold (by_enemies (by_coins players)).
  induction H as [|p e ps es Hp _ IH]; cbn [map]; [reflexivity|].
  rewrite IH. f_equal.
  rewrite (fastest_entry_username p e Hp). reflexivity.
Qed.

Lemma aggregate_follows_enemies_ranking_witness :
  exists out,
    aggregate two_players = Ok out
    /\ map (fun e => get_prop e "username") (firstn 1 out) = [VStr "b"].
Proof.
  eexists. split; [reflexivity|].
  exact (aggregate_follows_enemies_ranking 1 two_players _ eq_refl).
Defined.

(** ** The update handler and the store *)

Import Stored.

(** The update handler calls the store at most once, with the item built
    from the request, and answers 200 with that item or 500 with the
    error of the store. Without a user name, or with a text that is not
    JSON, it answers 400 or 500 without calling the store. *)
Theorem update_calls_store_with_item
    (JSON_parse : string -> result value) (JSON_stringify : value -> string)
    (put : object -> result unit) (ev : UpdatePlayerStats.event) :
  match written JSON_parse ev with
  | Some it =>
      UpdatePlayerStats.handler JSON_parse JSON_stringify put ev
      = match put it with
        | Ok _ =>
            mkResponse (num 200)
              (JSON_stringify
                 (VObj [("message",
                         VStr "Player stats overwritten successfully.");
                        ("data", VObj it)]))
              (Some UpdatePlayerStats.ok_headers)
        | Throw err =>
            mkResponse (num 500)
              (JSON_stringify
                 (VObj [("message", VStr "Failed to update player stats.");
                        ("error", VObj (enumerable err))]))
              None
        end
  | None =>
      (forall put',
         UpdatePlayerStats.handler JSON_parse JSON_stringify put ev
         = UpdatePlayerStats.handler JSON_parse JSON_stringify put' ev)
      /\ (statusCode (UpdatePlayerStats.handler JSON_parse JSON_stringify
                        put ev) = num 400
          \/ statusCode (UpdatePlayerStats.handler JSON_parse JSON_stringify
                           put ev) = num 500)
  end.
Proof.
  unfold written, UpdatePlayerStats.handler.
  destruct (UpdatePlayerStats.param ev "username") as [[|c r]|].
  - split; [reflexivity|now left].
  - destruct (UpdatePlayerStats.item JSON_parse (String c r) ev) as [it|e];
      cbn [bind].
    + destruct (put it); reflexivity.
    + split; [reflexivity|now right].
  - split; [reflexivity|now left].
Qed.

Lemma parseInt_integer (s : string) :
  parseInt s = NaN \/ exists z, parseInt s = Fin (inject_Z z).
Proof.
  unfold parseInt.
  destruct (match trim_left s with
            | String "+"%char r => (false, r)
            | String "-"%char r => (true, r)
            | _ => (false, trim_left s)
            end) as [negative t1].
  match goal with
  | |- context [let '(radix, t2) := ?X in _] => destruct X as [radix t2]
  end.
  destruct (take_digits radix t2 0 0) as [[v n] rest].
  destruct (n =? 0)%nat; [now left|right]. eauto.
Qed.

Lemma parsed_count_integer (s : option string) :
  exists z, UpdatePlayerStats.parsed_count s = num z.
Proof.
  unfold UpdatePlayerStats.parsed_count, or_else.
  destruct s as [t|]; [|exists 0%Z; reflexivity].
  destruct (parseInt_integer t) as [->|[z ->]]; [exists 0%Z; reflexivity|].
  destruct (ToBoolean (VNum (Fin (inject_Z z)))); [exists z|exists 0%Z];
    reflexivity.
Qed.

Lemma num_ranks_as_number (field : string) (it : object) (z : Z) :
  assoc field it = num z -> ranks_as_number field it.
Proof.
  intros E. apply numeric_field_ranks_as_number. now rewrite E.
Qed.


Lemma written_metrics_integers_aux
    (JSON_parse : string -> result value) (username : string)
    (ev : UpdatePlayerStats.event) (it : object) :
  UpdatePlayerStats.item JSON_parse username ev = Ok it ->
  exists coins enemies : Z,
    assoc "coins-collected" it = num coins
    /\ assoc "enemies-defeated" it = num enemies.
Proof.
  unfold UpdatePlayerStats.item.
  destruct (JSON_parse _) as [lv|e]; cbn [bind]; [|discriminate].
  destruct (JSON_parse _) as [ft|e]; cbn [bind]; [|discriminate].
  intros H. injection H as <-.
  destruct (parsed_count_integer (UpdatePlayerStats.param ev "coinsCollected"))
    as [c Ec].
  destruct (parsed_count_integer
              (UpdatePlayerStats.param ev "enemiesDefeated")) as [e Ee].
  exists c, e. cbn [assoc String.eqb Ascii.eqb Bool.eqb]. now split.
Qed.


(** A leaderboard over items that the update handler has written is
    sorted descending in both rankings: the metrics it stores always
    convert to numbers. *)
Theorem rankings_of_written_items_sorted
    (JSON_parse : string -> result value) (n : nat) (players : list object) :
  Forall (fun it => exists username ev,
            UpdatePlayerStats.item JSON_parse username ev = Ok it) players ->
  descending_by "coins" (coins_ranking n players)
  /\ descending_by "enemies" (enemies_ranking n players).
Proof.
  intros W.
  assert (G : forall field,
             field = "coins-collected" \/ field = "enemies-defeated" ->
             Forall (ranks_as_number field) players).
  { intros field Hf. eapply Forall_impl; [|exact W].
    intros it (u & ev & E).
    destruct (written_metrics_integers_aux JSON_parse u ev it E)
      as (c & e & Ec & Ee).
    destruct Hf as [->| ->]; eapply num_ranks_as_number; eassumption. }
  split.
  - apply topN_descending; [reflexivity|]. apply G. now left.
  - apply topN_descending; [reflexivity|].
    eapply Permutation_Forall; [|apply G; now right].
    symmetry. apply Array_sort_perm.
Qed.

Lemma rankings_of_written_items_sorted_witness :
  descending_by "coins"
    (coins_ranking 10
       [[("username", VStr "u"); ("coins-collected", num 7);
         ("enemies-defeated", num 0); ("levels-completed", VArr []);
         ("fastest-times", VObj [("level1", VArr [VNum (Fin (16 # 5))])])]]).
Proof.
  apply (rankings_of_written_items_sorted sample_parse 10).
  constructor; [|constructor].
  exists "u", update_event. reflexivity.
Defined.

(** *** Counts submitted as decimal digits *)

Ltac read_digit IH :=
  cbn [take_digits];
  match goal with
  | |- context [digit_value 10 ?c] =>
      let v := eval vm_compute in (digit_value 10 c) in
      change (digit_value 10 c) with v
  end;
  cbv iota beta;
  match goal with
  | |- take_digits 10 _ ?z _ = (Z.of_nat (Nat.of_uint_acc _ ?m), _, _) =>
      replace z with (Z.of_nat m) by (rewrite ?Nat.tail_mul_spec; lia)
  end;
  rewrite IH; f_equal; f_equal; lia.

Lemma take_digits_uint (d : Decimal.uint) :
  forall (a cnt : nat),
    take_digits 10 (NilEmpty.string_of_uint d) (Z.of_nat a) cnt
    = (Z.of_nat (Nat.of_uint_acc d a), (cnt + Decimal.nb_digits d)%nat, "").
Proof.
  induction d; intros a cnt;
    cbn [NilEmpty.string_of_uint Decimal.nb_digits Nat.of_uint_acc];
    [now rewrite Nat.add_0_r| ..]; read_digit IHd.
Qed.

Lemma nzhead_head (d : Decimal.uint) :
  match Decimal.nzhead d with
  | Decimal.D0 _ => False
  | _ => True
  end.
Proof. induction d; cbn [Decimal.nzhead]; auto. Qed.

Lemma to_uint_head (n : nat) :
  Nat.to_uint n = Decimal.zero
  \/ match Nat.to_uint n with
     | Decimal.Nil | Decimal.D0 _ => False
     | _ => True
     end.
Proof.
  rewrite <- (DecimalNat.Unsigned.of_to n) at 1 2.
  rewrite DecimalNat.Unsigned.to_of. unfold Decimal.unorm.
  pose proof (nzhead_head (Nat.to_uint n)) as H.
  destruct (Decimal.nzhead (Nat.to_uint n)); auto.
Qed.

Lemma parseInt_string_of_nat (n : nat) :
  parseInt (string_of_nat n) = Fin (inject_Z (Z.of_nat n)).
Proof.
  unfold string_of_nat.
  destruct (to_uint_head n) as [E|H].
  - rewrite E. rewrite <- (DecimalNat.Unsigned.of_to n), E. reflexivity.
  - rewrite <- (DecimalNat.Unsigned.of_to n) at 2.
    destruct (Nat.to_uint n) as [|d|d|d|d|d|d|d|d|d|d]; try contradiction;
      unfold parseInt;
      cbn [NilZero.string_of_uint NilEmpty.string_of_uint trim_left];
      match goal with
      | |- context [is_ws ?c] =>
          let v := eval vm_compute in (is_ws c) in change (is_ws c) with v
      end;
      cbv iota beta;
      cbn [take_digits];
      match goal with
      | |- context [digit_value 10 ?c] =>
          let v := eval vm_compute in (digit_value 10 c) in
          change (digit_value 10 c) with v
      end;
      cbv iota beta;
      match goal with
      | |- context [take_digits 10 _ ?z 1] =>
          let k := eval vm_compute in (Z.to_nat z) in
          change z with (Z.of_nat k)
      end;
      rewrite take_digits_uint; reflexivity.
Qed.

Lemma or_else_num (z : Z) : or_else (num z) (num 0) = num z.
Proof.
  unfold or_else, num. cbn [ToBoolean].
  destruct (Qeq_bool (inject_Z z) 0) eqn:Q; cbn [negb]; [|reflexivity].
  apply Qeq_bool_iff in Q. unfold Qeq in Q. cbn in Q.
  assert (z = 0%Z) by lia. now subst.
Qed.

Lemma parsed_count_decimal (n : nat) :
  UpdatePlayerStats.parsed_count (Some (string_of_nat n)) = num (Z.of_nat n).
Proof.
  unfold UpdatePlayerStats.parsed_count.
  rewrite parseInt_string_of_nat. apply or_else_num.
Qed.

(** A count submitted in decimal digits, of at most [2^53], is stored as
    that number, and a count that is not submitted is stored as 0. *)
Theorem submitted_counts_are_stored
    (JSON_parse : string -> result value) (username : string)
    (ev : UpdatePlayerStats.event) (it : object) :
  UpdatePlayerStats.item JSON_parse username ev = Ok it ->
  (forall n,
     (Z.of_nat n <= 2 ^ 53)%Z ->
     UpdatePlayerStats.param ev "coinsCollected" = Some (string_of_nat n) ->
     assoc "coins-collected" it = num (Z.of_nat n))
  /\ (forall n,
        (Z.of_nat n <= 2 ^ 53)%Z ->
        UpdatePlayerStats.param ev "enemiesDefeated"
        = Some (string_of_nat n) ->
        assoc "enemies-defeated" it = num (Z.of_nat n))
  /\ (UpdatePlayerStats.param ev "coinsCollected" = None ->
      assoc "coins-collected" it = num 0)
  /\ (UpdatePlayerStats.param ev "enemiesDefeated" = None ->
      assoc "enemies-defeated" it = num 0).
Proof.
  unfold UpdatePlayerStats.item.
  destruct (JSON_parse _) as [lv|e]; cbn [bind]; [|discriminate].
  destruct (JSON_parse _) as [ft|e]; cbn [bind]; [|discriminate].
  intros H. injection H as <-.
  cbn [assoc String.eqb Ascii.eqb Bool.eqb].
  repeat split.
  - intros n _ ->. apply parsed_count_decimal.
  - intros n _ ->. apply parsed_count_decimal.
  - intros ->. reflexivity.
  - intros ->. reflexivity.
Qed.

Lemma submitted_counts_are_stored_witness :
  exists it,
    UpdatePlayerStats.item sample_parse "u" update_event = Ok it
    /\ assoc "coins-collected" it = num 7
    /\ assoc "enemies-defeated" it = num 0.
Proof.
  eexists. split; [reflexivity|].
  destruct (submitted_counts_are_stored sample_parse "u" update_event _
              eq_refl) as (Hc & _ & _ & He).
  split; [exact (Hc 7%nat ltac:(cbn; lia) eq_refl) | exact (He eq_refl)].
Defined.




(** *** Reading back what was written *)

Lemma written_item (JSON_parse : string -> result value)
    (ev : UpdatePlayerStats.event) (it : object) :
  written JSON_parse ev = Some it ->
  exists u,
    UpdatePlayerStats.param ev "username" = Some u
    /\ u <> ""
    /\ assoc "username" it = VStr u.
Proof.
  unfold written.
  destruct (UpdatePlayerStats.param ev "username") as [[|c r]|];
    try discriminate.
  unfold UpdatePlayerStats.item.
  destruct (JSON_parse _) as [lv|e]; cbn [bind]; [|discriminate].
  destruct (JSON_parse _) as [ft|e]; cbn [bind]; [|discriminate].
  intros H. injection H as <-.
  exists (String c r). repeat split. discriminate.
Qed.

Lemma find_filter_frame {A : Type} (f g : A -> bool) (l : list A) :
  (forall x, f x = true -> g x = true) ->
  find f (filter g l) = find f l.
Proof.
  intros H. induction l as [|x r IH]; cbn [filter find]; [reflexivity|].
  destruct (f x) eqn:Fx.
  - rewrite (H x Fx). cbn [find]. now rewrite Fx.
  - destruct (g x); cbn [find]; [rewrite Fx|]; exact IH.
Qed.

Lemma filter_filter_none {A : Type} (f : A -> bool) (l : list A) :
  filter f (filter (fun x => negb (f x)) l) = [].
Proof.
  induction l as [|x r IH]; cbn [filter]; [reflexivity|].
  destruct (f x) eqn:Fx; cbn [negb filter]; [exact IH|].
  now rewrite Fx.
Qed.

Lemma named_other (u v : string) (it : object) :
  v <> u -> named v it = true -> negb (named u it) = true.
Proof.
  unfold named. destruct (assoc "username" it); try discriminate.
  intros N Hv. apply String.eqb_eq in Hv. subst.
  apply negb_true_iff, String.eqb_neq. exact N.
Qed.

(** After an update that the store accepts, reading the statistics of
    the same user answers 200 with exactly the item that was written;
    the table holds one item under that user name, however many updates
    came before; and the items of the other users are as they were. *)
Theorem read_after_update
    (JSON_parse : string -> result value) (JSON_stringify : value -> string)
    (table : list object) (ev : UpdatePlayerStats.event) (it : object) :
  written JSON_parse ev = Some it ->
  GetPlayerStats.handler JSON_stringify
    (fun u => Ok (get u (table_after JSON_parse table ev))) ev
  = mkResponse (num 200)
      (JSON_stringify
         (VObj [("message", VStr "Player stats retrieved successfully.");
                ("data", VObj it)]))
      (Some UpdatePlayerStats.ok_headers)
  /\ (exists u,
        UpdatePlayerStats.param ev "username" = Some u
        /\ filter (named u) (table_after JSON_parse table ev) = [it]
        /\ forall v, v <> u ->
             get v (table_after JSON_parse table ev) = get v table).
Proof.
  intros W. destruct (written_item _ _ _ W) as (u & Eu & Nu & Ek).
  assert (Hn : named u it = true).
  { unfold named. rewrite Ek. apply String.eqb_refl. }
  assert (Et : table_after JSON_parse table ev = put u it table).
  { unfold table_after. now rewrite Eu, W. }
  rewrite Et. split.
  - unfold GetPlayerStats.handler. rewrite Eu.
    destruct u as [|c r]; [contradiction|].
    unfold get, put. cbn [find]. now rewrite Hn.
  - exists u. split; [exact Eu|]. split.
    + unfold put. cbn [filter]. rewrite Hn. now rewrite filter_filter_none.
    + intros v Nv. unfold get, put. cbn [find].
      destruct (named v it) eqn:Hv.
      * unfold named in Hn, Hv. rewrite Ek in Hn, Hv.
        apply String.eqb_eq in Hv. congruence.
      * apply find_filter_frame. intros x. now apply named_other.
Qed.

Lemma read_after_update_witness :
  exists it,
    written sample_parse update_event = Some it
    /\ GetPlayerStats.handler (fun _ => "")
         (fun u => Ok (get u (table_after sample_parse
                                [Sample.player "u" 1 1; Sample.player "w" 2 2]
                                update_event)))
         update_event
       = mkResponse (num 200) "" (Some UpdatePlayerStats.ok_headers).
Proof.
  eexists. split; [reflexivity|].
  exact (proj1 (read_after_update sample_parse (fun _ => "")
                  [Sample.player "u" 1 1; Sample.player "w" 2 2]
                  update_event _ eq_refl)).
Defined.

(** ** The colour of a file *)

Import Text S3.

Lemma split_nonempty (sep : ascii) (s : string) : split sep s <> [].
Proof.
  destruct s as [|c r]; cbn [split]; [discriminate|].
  destruct (Ascii.eqb c sep); [discriminate|].
  destruct (split sep r); discriminate.
Qed.

Lemma split_free (sep : ascii) (s : string) :
  free_of sep s = true -> split sep s = [s].
Proof.
  induction s as [|c r IH]; cbn [free_of split]; [reflexivity|].
  intros H. apply andb_prop in H. destruct H as [Hc Hr].
  apply negb_true_iff in Hc. rewrite Hc, (IH Hr). reflexivity.
Qed.

Lemma split_app (sep : ascii) (x y : string) :
  split sep (x ++ String sep y) = split sep x ++ split sep y.
Proof.
  induction x as [|c r IH]; cbn [append split app].
  - now rewrite Ascii.eqb_refl.
  - destruct (Ascii.eqb c sep); [now rewrite IH|].
    rewrite IH. pose proof (split_nonempty sep r) as N.
    destruct (split sep r) as [|seg segs]; [contradiction|reflexivity].
Qed.

Lemma last_app_nonempty {A : Type} (l1 l2 : list A) (d : A) :
  l2 <> [] -> last (l1 ++ l2) d = last l2 d.
Proof.
  intros N. induction l1 as [|x r IH]; cbn [app]; [reflexivity|].
  cbn [last]. destruct (r ++ l2) eqn:E; [|exact IH].
  apply app_eq_nil in E. destruct E. contradiction.
Qed.

Lemma free_of_app (c : ascii) (x y : string) :
  free_of c (x ++ y) = free_of c x && free_of c y.
Proof.
  induction x as [|a r IH]; cbn [append free_of]; [reflexivity|].
  now rewrite IH, andb_assoc.
Qed.

Lemma basename_after_slash (dir base : string) :
  free_of "/" base = true ->
  last (split "/" (dir ++ String "/" base)) "" = base.
Proof.
  intros H. rewrite split_app, last_app_nonempty by apply split_nonempty.
  now rewrite split_free.
Qed.

Lemma stem_before_dot (name ext : string) :
  free_of "." name = true ->
  hd "" (split "." (name ++ String "." ext)) = name.
Proof. intros H. rewrite split_app, split_free by exact H. reflexivity. Qed.

(** The colour read off a key is the name of the file without its folder
    and without its extension: for a key [dir/name.ext] whose [name] has
    no slash and no dot it is [name], with or without a folder, with or
    without an extension. *)
Theorem colour_of_file (dir name ext : string) :
  free_of "/" name = true ->
  free_of "." name = true ->
  free_of "/" ext = true ->
  colour_of (dir ++ "/" ++ name ++ "." ++ ext) = name
  /\ colour_of (name ++ "." ++ ext) = name
  /\ colour_of (dir ++ "/" ++ name) = name
  /\ colour_of name = name.
Proof.
  intros Hs Hd He.
  assert (Hb : free_of "/" (name ++ String "." ext) = true).
  { rewrite free_of_app. cbn [free_of]. now rewrite Hs, He. }
  unfold colour_of. cbn [append]. repeat split.
  - rewrite basename_after_slash by exact Hb. now apply stem_before_dot.
  - rewrite (split_free "/") by exact Hb. cbn [last].
    now apply stem_before_dot.
  - rewrite basename_after_slash by exact Hs. now rewrite split_free.
  - rewrite (split_free "/") by exact Hs. cbn [last].
    now rewrite split_free.
Qed.

Lemma colour_of_file_witness :
  colour_of "characters/blue.png" = "blue".
Proof.
  exact (proj1 (colour_of_file "characters" "blue" "png"
                  eq_refl eq_refl eq_refl)).
Defined.

(** ** The spritesheet of a colour *)

Lemma validFiles_In (contents : list s3_object) (key : string) :
  In key (validFiles contents) <->
  In (mkObject (Some key)) contents
  /\ key <> "" /\ endsWith "/" key = false.
Proof.
  unfold validFiles. rewrite in_flat_map. split.
  - intros ([[k|]] & Ho & Hk); cbn [Key] in Hk; [|destruct Hk].
    unfold is_file in Hk. cbn [Key] in Hk.
    destruct k as [|c r]; [destruct Hk|].
    destruct (endsWith "/" (String c r)) eqn:E; cbn [negb] in Hk;
      [destruct Hk|].
    destruct Hk as [<-|[]]. repeat split; [exact Ho|discriminate|exact E].
  - intros (Ho & Hn & He). exists (mkObject (Some key)). split; [exact Ho|].
    unfold is_file. cbn [Key]. destruct key as [|c r]; [contradiction|].
    rewrite He. now left.
Qed.

Lemma find_first {A : Type} (f : A -> bool) (l : list A) (x : A) :
  find f l = Some x ->
  exists pre post,
    l = pre ++ x :: post /\ f x = true /\ Forall (fun y => f y = false) pre.
Proof.
  induction l as [|y r IH]; cbn [find]; [discriminate|].
  destruct (f y) eqn:Fy.
  - intros H. injection H as <-. exists [], r. repeat split; auto.
  - intros H. destruct (IH H) as (pre & post & -> & Fx & Hpre).
    exists (y :: pre), post. repeat split; auto.
Qed.

(** For a request that names a colour and a listing that resolves: when
    some file of the listing (a key that is not empty and does not end
    with a slash) has the colour, the answer is 200 with the URL of the
    first such file in the order of the listing; when none has, the
    answer is 404. *)
Theorem spritesheet_of_colour (JSON_stringify : value -> string)
    (contents : list s3_object) (ev : UpdatePlayerStats.event)
    (colour : string) :
  UpdatePlayerStats.param ev "characterColour" = Some colour ->
  colour <> "" ->
  let r := SpritesheetURL.handler JSON_stringify
             (Ok (mkListing (Some contents))) ev in
  ((exists key, In key (validFiles contents) /\ colour_of key = colour) ->
   exists pre key post,
     validFiles contents = pre ++ key :: post
     /\ colour_of key = colour
     /\ Forall (fun k => colour_of k <> colour) pre
     /\ r = SpritesheetURL.found JSON_stringify colour key)
  /\ ((forall key, In key (validFiles contents) -> colour_of key <> colour) ->
      statusCode r = num 404).
Proof.
  intros Ep Nc r. subst r. unfold SpritesheetURL.handler. rewrite Ep.
  destruct colour as [|c0 r0]; [contradiction|].
  split.
  - intros (key & Hk & Hc).
    destruct contents as [|o os]; [destruct Hk|]. cbn [Contents].
    destruct (find (fun k => colour_of k =? String c0 r0)
                   (validFiles (o :: os))) as [k|] eqn:F.
    + destruct (find_first _ _ _ F) as (pre & post & E & Fk & Hpre).
      exists pre, k, post.
      split; [exact E|]. split; [now apply String.eqb_eq|].
      split; [|reflexivity].
      eapply Forall_impl; [|exact Hpre].
      intros a Ha. now apply String.eqb_neq.
    + exfalso. apply (find_none _ _ F) in Hk.
      apply String.eqb_neq in Hk. contradiction.
  - intros H. destruct contents as [|o os]; [reflexivity|]. cbn [Contents].
    destruct (find (fun k => colour_of k =? String c0 r0)
                   (validFiles (o :: os))) as [k|] eqn:F; [|reflexivity].
    apply find_some in F. destruct F as [Hk Hc].
    apply String.eqb_eq in Hc. exfalso. exact (H k Hk Hc).
Qed.

Lemma spritesheet_of_colour_witness :
  SpritesheetURL.handler (fun _ => "")
    (Ok (mkListing (Some SampleListing.sprites))) SampleListing.blue_request
  = SpritesheetURL.found (fun _ => "") "blue" "spritesheets/blue.png".
Proof.
  destruct (spritesheet_of_colour (fun _ => "") SampleListing.sprites
              SampleListing.blue_request "blue" eq_refl
              ltac:(discriminate)) as [H _].
  destruct H as (pre & key & post & _ & _ & _ & E).
  - exists "spritesheets/blue.png". split; [cbn; auto|reflexivity].
  - reflexivity.
Defined.

(** A request without a colour, or with an empty one, is answered 400
    whatever the listing would have returned: the bucket is not listed.
    A request with a colour is answered 500 exactly when the listing
    rejects. *)
Theorem spritesheet_errors (JSON_stringify : value -> string)
    (send : result listing) (ev : UpdatePlayerStats.event) :
  (UpdatePlayerStats.param ev "characterColour" = None
   \/ UpdatePlayerStats.param ev "characterColour" = Some "" ->
   SpritesheetURL.handler JSON_stringify send ev
   = mkResponse (num 400)
       (JSON_stringify
          (VObj [("message",
                  VStr "Missing required query parameter: characterColour")]))
       None)
  /\ (forall colour,
        UpdatePlayerStats.param ev "characterColour" = Some colour ->
        colour <> "" ->
        (statusCode (SpritesheetURL.handler JSON_stringify send ev) = num 500
         <-> exists err, send = Throw err)).
Proof.
  unfold SpritesheetURL.handler. split.
  - intros [-> | ->]; reflexivity.
  - intros colour -> Nc. destruct colour as [|c s]; [contradiction|].
    destruct send as [[[[|o os]|]]|err]; cbn [Contents].
    + split; [discriminate|]. intros [e H]. discriminate H.
    + destruct (find _ _); (split; [discriminate|]);
        intros [e H]; discriminate H.
    + split; [discriminate|]. intros [e H]. discriminate H.
    + split; [eauto|reflexivity].
Qed.

Lemma spritesheet_errors_witness :
  SpritesheetURL.handler (fun _ => "") (Throw (Error "down"))
    SampleListing.no_colour_request
  = mkResponse (num 400) "" None
  /\ statusCode (SpritesheetURL.handler (fun _ => "") (Throw (Error "down"))
                   SampleListing.blue_request) = num 500.
Proof.
  destruct (spritesheet_errors (fun _ => "") (Throw (Error "down"))
              SampleListing.no_colour_request) as [H _].
  destruct (spritesheet_errors (fun _ => "") (Throw (Error "down"))
              SampleListing.blue_request) as [_ H'].
  split.
  - apply H. left. reflexivity.
  - apply (H' "blue" eq_refl ltac:(discriminate)). eauto.
Defined.

(** ** The URLs of all characters *)




Lemma assoc_absent (k : string) (ps : object) :
  ~ In k (map fst ps) -> assoc k ps = VUndef.
Proof.
  induction ps as [|[k0 v0] r IH]; cbn [assoc map fst In]; [reflexivity|].
  intros H. destruct (k =? k0) eqn:E.
  - apply String.eqb_eq in E. subst. exfalso. apply H. now left.
  - apply IH. intros Hr. apply H. now right.
Qed.









(** ** The handlers of the user table *)

Lemma get_user_other_method (get : string -> result (option object))
    (m : option string) (q : option (list (string * string))) :
  m <> Some "GET" ->
  GetUser.try_block get (Gateway.mkEvent m q) = Throw (Gateway.unsupported m).
Proof.
  intros H. destruct m as [s|]; [|reflexivity].
  next_char s. next_char s. next_char s. next_char s.
  now elim H.
Qed.

(** Reading a user answers ['200'] exactly when the method is GET, a
    user name that is not empty is given and the store resolves, also
    when the store has no such user: the body is then a message and the
    status is still ['200']. Every other request, a failure of the store
    included, is answered ['400']. *)
Theorem get_user_succeeds_iff (JSON_stringify : value -> string)
    (get : string -> result (option object)) (ev : Gateway.event) :
  let r := GetUser.handler JSON_stringify get ev in
  (statusCode r = VStr "200" <->
   Gateway.httpMethod ev = Some "GET"
   /\ exists q u found,
        Gateway.queryStringParameters ev = Some q
        /\ Gateway.lookup q "username" = Some u
        /\ u <> ""
        /\ get u = Ok found
        /\ body r = JSON_stringify
                      (match found with
                       | Some Item => VObj Item
                       | None => VObj [("message", VStr "User not found")]
                       end))
  /\ (statusCode r = VStr "200" \/ statusCode r = VStr "400").
Proof.
  cbv zeta. destruct ev as [m q]. cbn [Gateway.httpMethod
                                        Gateway.queryStringParameters].
  assert (D : m = Some "GET" \/ m <> Some "GET").
  { destruct m as [s|]; [|right; discriminate].
    destruct (string_dec s "GET") as [->|N]; [now left|right; congruence]. }
  unfold GetUser.handler.
  destruct D as [->|N].
  - unfold GetUser.try_block.
    cbn [Gateway.httpMethod Gateway.queryStringParameters].
    destruct q as [q|].
    + destruct (Gateway.lookup q "username") as [[|c s]|] eqn:L.
      * split; [|now right]. split; [discriminate|].
        intros (_ & q' & u & f & Eq & Eu & Nu & _).
        injection Eq as <-. rewrite L in Eu. injection Eu as <-.
        contradiction.
      * destruct (get (String c s)) as [found|err] eqn:G; cbn [bind].
        -- split; [|now left]. split; [|reflexivity].
           intros _. split; [reflexivity|].
           exists q, (String c s), found.
           repeat split; auto. discriminate.
        -- split; [|now right]. split; [discriminate|].
           intros (_ & q' & u & f & Eq & Eu & _ & Eg & _).
           injection Eq as <-. rewrite L in Eu. injection Eu as <-.
           rewrite G in Eg. discriminate.
      * split; [|now right]. split; [discriminate|].
        intros (_ & q' & u & f & Eq & Eu & _).
        injection Eq as <-. rewrite L in Eu. discriminate.
    + split; [|now right]. split; [discriminate|].
      intros (_ & q' & u & f & Eq & _). discriminate.
  - rewrite get_user_other_method by assumption.
    split; [|now right]. split; [discriminate|].
    intros [E _]. contradiction.
Qed.

Lemma update_character_other_method
    (update : value -> value -> result value)
    (m : option string) (q : option (list (string * string))) :
  m <> Some "GET" -> m <> Some "OPTIONS" ->
  UpdateCharacter.try_block update (Gateway.mkEvent m q)
  = Throw (Gateway.unsupported m).
Proof.
  intros H H'. destruct m as [s|]; [|reflexivity].
  next_char s; next_char s; next_char s; next_char s;
    try (now elim H);
    next_char s; next_char s; next_char s; next_char s.
  now elim H'.
Qed.

(** Choosing a character calls the store exactly for a GET request that
    has query parameters, whether or not a user name is among them, and
    answers ['200'] when the store resolves. A request without query
    parameters, an OPTIONS request (answered ['204']) and a request with
    another method are answered without calling the store. *)
Theorem update_character_store_use (JSON_stringify : value -> string)
    (update : value -> value -> result value) (ev : Gateway.event) :
  let r := UpdateCharacter.handler JSON_stringify update ev in
  (statusCode r = VStr "200" <->
   Gateway.httpMethod ev = Some "GET"
   /\ exists q b,
        Gateway.queryStringParameters ev = Some q
        /\ update (Gateway.as_value (Gateway.lookup q "username"))
                  (Gateway.as_value (Gateway.lookup q "colour")) = Ok b
        /\ body r = JSON_stringify b)
  /\ (statusCode r = VStr "204" <-> Gateway.httpMethod ev = Some "OPTIONS")
  /\ (Gateway.httpMethod ev <> Some "GET"
      \/ Gateway.queryStringParameters ev = None ->
      forall update', UpdateCharacter.handler JSON_stringify update' ev = r).
Proof.
  cbv zeta. destruct ev as [m q].
  cbn [Gateway.httpMethod Gateway.queryStringParameters].
  assert (D : m = Some "GET" \/ m = Some "OPTIONS"
              \/ (m <> Some "GET" /\ m <> Some "OPTIONS")).
  { destruct m as [s|]; [|right; right; split; discriminate].
    destruct (string_dec s "GET") as [->|N]; [now left|].
    destruct (string_dec s "OPTIONS") as [->|N']; [right; now left|].
    right; right; split; congruence. }
  unfold UpdateCharacter.handler.
  destruct D as [->|[->|[N N']]].
  - unfold UpdateCharacter.try_block.
    cbn [Gateway.httpMethod Gateway.queryStringParameters].
    destruct q as [q|].
    + destruct (update _ _) as [b|err] eqn:U; cbn [bind].
      * split; [|split].
        -- split; [|reflexivity]. intros _. split; [reflexivity|].
           exists q, b. repeat split; auto.
        -- split; discriminate.
        -- intros [H|H]; [now elim H|discriminate].
      * split; [|split].
        -- split; [discriminate|].
           intros (_ & q' & b & Eq & Eu & _). injection Eq as <-.
           rewrite U in Eu. discriminate.
        -- split; discriminate.
        -- intros [H|H]; [now elim H|discriminate].
    + split; [|split].
      * split; [discriminate|]. intros (_ & q' & b & Eq & _). discriminate.
      * split; discriminate.
      * intros _ update'. reflexivity.
  - split; [|split].
    + split; [discriminate|]. intros [E _]. discriminate.
    + split; reflexivity.
    + intros _ update'. reflexivity.
  - rewrite update_character_other_method by assumption.
    split; [|split].
    + split; [discriminate|]. intros [E _]. contradiction.
    + split; [discriminate|]. intros E. contradiction.
    + intros _ update'.
      now rewrite update_character_other_method by assumption.
Qed.

(** ** Further properties of the handlers around the store *)

(** An answer 200 of the spritesheet request always carries the URL of a
    file of the listing: its key is not empty, does not end with a slash
    (it is not a folder entry) and has the colour that was asked for. *)
Theorem spritesheet_answer_is_sound (JSON_stringify : value -> string)
    (send : result listing) (ev : UpdatePlayerStats.event) :
  statusCode (SpritesheetURL.handler JSON_stringify send ev) = num 200 ->
  exists colour contents key,
    UpdatePlayerStats.param ev "characterColour" = Some colour
    /\ send = Ok (mkListing (Some contents))
    /\ In (mkObject (Some key)) contents
    /\ key <> ""
    /\ endsWith "/" key = false
    /\ colour_of key = colour
    /\ SpritesheetURL.handler JSON_stringify send ev
       = SpritesheetURL.found JSON_stringify colour key.
Proof.
  unfold SpritesheetURL.handler.
  destruct (UpdatePlayerStats.param ev "characterColour") as [[|c s]|];
    try discriminate.
  destruct send as [[[[|o os]|]]|err]; cbn [Contents]; try discriminate.
  destruct (find _ _) as [key|] eqn:F; [|discriminate].
  intros _. apply find_some in F. destruct F as [Hk Hc].
  apply String.eqb_eq in Hc. apply validFiles_In in Hk.
  destruct Hk as (Hin & Hn & He).
  exists (String c s), (o :: os), key. repeat split; auto.
Qed.

Lemma spritesheet_answer_is_sound_witness :
  exists key,
    In (mkObject (Some key)) SampleListing.sprites
    /\ endsWith "/" key = false
    /\ colour_of key = "blue".
Proof.
  destruct (spritesheet_answer_is_sound (fun _ => "")
              (Ok (mkListing (Some SampleListing.sprites)))
              SampleListing.blue_request eq_refl)
    as (colour & contents & key & Ec & Es & Hin & _ & He & Hc & _).
  injection Ec as <-. injection Es as <-.
  exists key. repeat split; assumption.
Defined.

(** Reading the statistics of a player tells the four outcomes apart:
    400 exactly without a user name, and with one, 200 exactly when the
    store holds an item (returned as it is), 404 exactly when it holds
    none, 500 exactly when the store rejects. *)
Theorem get_player_stats_answers (JSON_stringify : value -> string)
    (get : string -> result (option object)) (ev : UpdatePlayerStats.event) :
  let r := GetPlayerStats.handler JSON_stringify get ev in
  (statusCode r = num 400 <->
   UpdatePlayerStats.param ev "username" = None
   \/ UpdatePlayerStats.param ev "username" = Some "")
  /\ forall u,
       UpdatePlayerStats.param ev "username" = Some u -> u <> "" ->
       (statusCode r = num 200 <->
        exists Item,
          get u = Ok (Some Item)
          /\ body r
             = JSON_stringify
                 (VObj [("message",
                         VStr "Player stats retrieved successfully.");
                        ("data", VObj Item)]))
       /\ (statusCode r = num 404 <-> get u = Ok None)
       /\ (statusCode r = num 500 <-> exists err, get u = Throw err).
Proof.
  cbv zeta. unfold GetPlayerStats.handler.
  destruct (UpdatePlayerStats.param ev "username") as [[|c s]|].
  - split; [split; auto|]. intros u E N. injection E as <-. contradiction.
  - split.
    + split.
      * destruct (get (String c s)) as [[Item|]|err]; discriminate.
      * intros [H|H]; discriminate H.
    + intros u E _. injection E as <-.
      destruct (get (String c s)) as [[Item|]|err]; cbn [statusCode body].
      * split; [|split]; split; try discriminate.
        -- intros _. exists Item. now split.
        -- reflexivity.
        -- intros [e H]. discriminate H.
      * split; [|split]; split; try discriminate; try reflexivity.
        -- intros [Item [H _]]. discriminate H.
        -- intros [e H]. discriminate H.
      * split; [|split]; split; try discriminate; try reflexivity.
        -- intros [Item [H _]]. discriminate H.
        -- intros _. now exists err.
  - split; [split; auto|]. intros u E. discriminate E.
Qed.

(** After an update that the store accepts, a leaderboard over the table
    shows the player in both rankings with the item just written, as
    long as the table holds at most [n] items. *)
Theorem update_then_leaderboard
    (JSON_parse : string -> result value) (n : nat)
    (table : list object) (ev : UpdatePlayerStats.event) (it : object) :
  written JSON_parse ev = Some it ->
  (List.length (table_after JSON_parse table ev) <= n)%nat ->
  In (ranked "coins-collected" "coins" it)
     (coins_ranking n (table_after JSON_parse table ev))
  /\ In (ranked "enemies-defeated" "enemies" it)
        (enemies_ranking n (table_after JSON_parse table ev)).
Proof.
  intros W L. destruct (written_item _ _ _ W) as (u & Eu & _ & _).
  assert (Hin : In it (table_after JSON_parse table ev)).
  { unfold table_after. rewrite Eu, W. now left. }
  destruct (rankings_perm n _ L) as [Pc Pe].
  split; [eapply Permutation_in; [exact Pc|] | eapply Permutation_in;
                                                 [exact Pe|]];
    now apply in_map.
Qed.

Lemma update_then_leaderboard_witness :
  In (VObj [("username", VStr "u"); ("coins", num 7)])
     (coins_ranking 10
        (table_after sample_parse
           [Sample.player "u" 1 1; Sample.player "w" 2 2] update_event)).
Proof.
  refine (proj1 (update_then_leaderboard sample_parse 10
                   [Sample.player "u" 1 1; Sample.player "w" 2 2]
                   update_event _ eq_refl _)).
  cbn. lia.
Defined.
